(** * TEE: similarity search, label migration and the standalone viewer

    A shallow embedding of the Python sources

      - [test_similarity_search.py] and [test_full_workflow.py]: the
        distance and match-count computations of the similarity search,
      - [migrate_labels_to_sqlite.py]: the one-time import of the legacy
        JSON label files into the label store,
      - [create_web_viewer.py]: the generator of the standalone HTML page,

    together with the properties the specification states about them.

    Numbers.  The arrays of the search are [float32]; they are modelled by
    the real numbers, so rounding is abstracted away and every statement
    below is about the exact arithmetic the code approximates. *)

From Stdlib Require Import String Ascii Bool Arith ZArith QArith Qround.
From Stdlib Require Import Reals Lra Lia List Permutation Sorted.
From Stdlib Require Lqa.
Import ListNotations.

(** ** Python exceptions

    The exceptions the three scripts can meet, shared by all models. *)

Inductive PyError : Type :=
| NameError (name : string)
| AttributeError (type_name attr : string)
| TypeError (msg : string)
| ValueError (msg : string)
| OSError (msg : string)
| KeyError (key : string)
| JSONDecodeError (msg : string)
| OperationalError (msg : string).

(** A computation that either raises or returns. *)
Definition result (A : Type) : Type := (PyError + A)%type.

Definition raise {A : Type} (e : PyError) : result A := inl e.
Definition ret {A : Type} (a : A) : result A := inr a.

Definition is_ok {A : Type} (r : result A) : bool :=
  match r with inr _ => true | inl _ => false end.

Definition bind {A B : Type} (r : result A) (k : A -> result B) : result B :=
  match r with inl e => inl e | inr a => k a end.

Notation "x <- r ;; k" := (bind r (fun x => k))
  (at level 61, r at next level, right associativity).

(* ================================================================== *)
(** ** The similarity search: [test_similarity_search.py] *)
(* ================================================================== *)

Module Similarity.

Local Open Scope R_scope.

(** A one-dimensional array. *)
Definition Vec : Type := list R.

(** A two-dimensional array of shape [(length rows, ncols)]. *)
Record Array2 : Type := mkArray2 { ncols : nat; rows : list Vec }.

Definition well_shaped (a : Array2) : Prop :=
  Forall (fun r => length r = ncols a) (rows a).

(** [np.sum] over the last axis. *)
Definition np_sum (v : Vec) : R := fold_right Rplus 0 v.

(** [x / 255.0], element by element. *)
Definition div255 (v : Vec) : Vec := map (fun x => x / 255) v.

(** NumPy broadcasting of the column counts of [(N, d)] and [(1, d')]:
    equal counts, or one of them 1; anything else is a [ValueError]. *)
Definition broadcast_cols (d d' : nat) : option nat :=
  if Nat.eqb d d' then Some d
  else if Nat.eqb d' 1 then Some d
  else if Nat.eqb d 1 then Some d'
  else None.

(** A row of length 1 is repeated to the broadcast length. *)
Definition stretch (n : nat) (v : Vec) : Vec :=
  if Nat.eqb (length v) n then v else repeat (hd 0 v) n.

(** [row - test_emb], element by element. *)
Definition sub_row (row test_emb : Vec) : Vec :=
  map (fun ab => fst ab - snd ab) (combine row test_emb).

(** Lines 93-97:
<<
    test_emb_f32 = np.array(embedding, dtype=np.float32) / 255.0
    all_emb_f32 = all_embeddings.astype(np.float32) / 255.0
    diff = all_emb_f32 - test_emb_f32[np.newaxis, :]
    distances = np.sqrt(np.sum(diff ** 2, axis=1))
>>
    [None] is the [ValueError] of shapes that do not broadcast.

    The [float32] operations are taken as the exact operations on the
    reals: the definition gives the value of the formula the code
    evaluates, not the rounding of that value.  A statement below about
    a distance is about this exact value; the code's [float32] result
    may differ from it in the last digits. *)
Definition distances (embedding : Vec) (all_embeddings : Array2)
  : option (list R) :=
  let test_emb_f32 := div255 embedding in
  let all_emb_f32 := map div255 (rows all_embeddings) in
  match broadcast_cols (ncols all_embeddings) (length test_emb_f32) with
  | None => None
  | Some n =>
      let diff :=
        map (fun row => sub_row (stretch n row) (stretch n test_emb_f32))
            all_emb_f32 in
      Some (map (fun d => sqrt (np_sum (map (fun x => x ^ 2) d))) diff)
  end.

(** [a <= b] as NumPy's boolean. *)
Definition Rle_b (a b : R) : bool := if Rle_dec a b then true else false.

(** Line 109: [count = np.sum(distances <= th)]. *)
Definition count (distances : list R) (th : R) : nat :=
  length (filter (fun b : bool => b) (map (fun d => Rle_b d th) distances)).

(** The number of matches the script prints for a threshold. *)
Definition match_count (embedding : Vec) (all_embeddings : Array2) (th : R)
  : option nat :=
  option_map (fun ds => count ds th) (distances embedding all_embeddings).

(** [test_full_workflow.py], lines 86-87:
<<
    test_dist_sq = sum((avg_embedding[i] - embedding1[i]) ** 2
                       for i in range(len(avg_embedding)))
    test_dist = np.sqrt(test_dist_sq)
>>
    the distance of the raw values, without the division by 255.  [None]
    is the [IndexError] of an [embedding1] shorter than [avg_embedding]. *)
Fixpoint test_dist_sq (avg_embedding embedding1 : Vec) : option R :=
  match avg_embedding with
  | [] => Some 0
  | a :: avg' =>
      match embedding1 with
      | [] => None
      | b :: emb' =>
          option_map (fun s => (a - b) ^ 2 + s) (test_dist_sq avg' emb')
      end
  end.

Definition test_dist (avg_embedding embedding1 : Vec) : option R :=
  option_map sqrt (test_dist_sq avg_embedding embedding1).

(** *** The distance as the specification words it *)

(** [sum over i < n of f i]. *)
Fixpoint sum_upto (n : nat) (f : nat -> R) : R :=
  match n with
  | O => 0
  | S k => sum_upto k f + f k
  end.

(** [sqrt (sum over i of (query[i] - stored[i])^2)] for vectors of
    dimensionality [D]. *)
Definition euclidean_spec (D : nat) (query stored : Vec) : R :=
  sqrt (sum_upto D (fun i => (nth i query 0 - nth i stored 0) ^ 2)).

(** Normalisation from the 8-bit domain to [0,1] as the specification
    words it: every component divided by 255. *)
Definition normalize_spec (v : Vec) : Vec := map (fun x => x / 255) v.

(** The distance of one stored row, as [distances] computes it when the
    shapes agree. *)
Definition row_distance (embedding row : Vec) : R :=
  sqrt (np_sum (map (fun x => x ^ 2) (sub_row (div255 row) (div255 embedding)))).

(** *** The search operation

    Pixel addresses, embedding sets and matches, as section 3 of the
    specification has them.  Raw components are kept as reals: the code
    converts whatever the array holds with [astype(np.float32)]. *)

Record PixelAddress : Type := mkPixel { px : nat; py : nat }.

Definition Embedding : Type := Vec.

Definition EmbeddingSet : Type := list (PixelAddress * Embedding).

Record Match : Type :=
  mkMatch { pixel : PixelAddress; lat : R; lon : R; distance : R }.

Record QueryStats : Type := mkStats { total_pixels : nat }.

Inductive SearchError : Type :=
| NoActiveViewport | OutOfBounds | MissingIndex | DimensionMismatch
| StorageUnavailable.

Section Search.

(** The coordinate mapper is not part of the sources; the search only
    uses it to decorate a match. *)
Variable pixel_to_geo : PixelAddress -> R * R.

(** Stable insertion: [m] goes before the first match that is not
    closer, so earlier pixels stay first among equal distances. *)
Fixpoint insert_match (m : Match) (ms : list Match) : list Match :=
  match ms with
  | [] => [m]
  | m' :: rest =>
      if Rle_dec (distance m) (distance m') then m :: ms
      else m' :: insert_match m rest
  end.

Definition sort_matches (ms : list Match) : list Match :=
  fold_right insert_match [] ms.

Definition to_match (pd : PixelAddress * R) : Match :=
  let (la, lo) := pixel_to_geo (fst pd) in mkMatch (fst pd) la lo (snd pd).

(** The pixels of [set], paired with their distances [ds], that lie
    within the threshold: [distance <= threshold]. *)
Definition within (set : EmbeddingSet) (ds : list R) (threshold : R)
  : list (PixelAddress * R) :=
  filter (fun pd => Rle_b (snd pd) threshold) (combine (map fst set) ds).

(** Modelled from the spec: the backend's [search] is not among the
    sources, only the diagnostic script that recomputes its distances
    and counts.  Section 4.4: check the dimensionality, compute the
    distances of the normalised vectors (with [distances] above), keep
    the pixels with [distance <= threshold], convert them to geographic
    coordinates, sort ascending by distance with ties in index order,
    and report the size of the whole set. *)
Definition search (set : EmbeddingSet) (query_embedding : Vec)
           (threshold : R) : SearchError + (list Match * QueryStats) :=
  let D := length query_embedding in
  if forallb (fun e => Nat.eqb (length (snd e)) D) set then
    match distances query_embedding (mkArray2 D (map snd set)) with
    | None => inl DimensionMismatch
    | Some ds =>
        let kept := within set ds threshold in
        inr (sort_matches (map to_match kept), mkStats (length set))
    end
  else inl DimensionMismatch.

End Search.

(** *** Raw and pre-divided vectors

    Section 8 of the specification speaks of two conventions: vectors
    supplied as raw 8-bit values, which the search divides by 255, and
    vectors supplied already divided, which are compared as they are. *)

(** The pixels the filter of line 109 keeps, for raw vectors on both
    sides: the distances are those of lines 93-97. *)
Definition match_set_normalized (set : EmbeddingSet) (query : Vec)
           (threshold : R) : option (list PixelAddress) :=
  option_map (fun ds => map fst (within set ds threshold))
             (distances query (mkArray2 (length query) (map snd set))).

(** A set whose stored vectors were divided by 255 beforehand. *)
Definition prescaled (set : EmbeddingSet) : EmbeddingSet :=
  map (fun pe => (fst pe, div255 (snd pe))) set.

(** Modelled from the spec: no code under the sources takes vectors that
    are already divided.  Section 4.4, steps 3 and 4, on such vectors:
    the Euclidean distance [sqrt (sum (query[i] - stored[i])^2)] of the
    vectors as they are supplied, and the pixels with
    [distance <= threshold]; a stored vector of another dimensionality
    than the query's is the [DimensionMismatch] of the section, here
    [None]. *)
Definition match_set_predivided (set : EmbeddingSet) (query : Vec)
           (threshold : R) : option (list PixelAddress) :=
  let D := length query in
  if forallb (fun pe => Nat.eqb (length (snd pe)) D) set
  then Some (map fst
               (filter (fun pe =>
                          Rle_b (euclidean_spec D query (snd pe)) threshold)
                       set))
  else None.

(** Modelled from the spec: [extract] (section 4.3) is missing from the
    sources; it hands back the embedding stored for the pixel. *)
Definition extracted (set : EmbeddingSet) (p : PixelAddress) (e : Embedding)
  : Prop := In (p, e) set.

(** All stored embeddings have dimensionality [D]. *)
Definition uniform_dim (D : nat) (set : EmbeddingSet) : Prop :=
  Forall (fun e => length (snd e) = D) set.

(** Scenario A of the specification: three pixels whose normalised
    vectors are [0,0], [0,1] and [10,10], that is, raw components 255
    times as large. *)
Definition pixel0 : PixelAddress := mkPixel 0 0.
Definition pixel1 : PixelAddress := mkPixel 1 0.
Definition pixel2 : PixelAddress := mkPixel 2 0.

Definition scenario_A : EmbeddingSet :=
  [ (pixel0, [0; 0]); (pixel1, [0; 255]); (pixel2, [2550; 2550]) ].

(** *** The average of two embeddings: [test_full_workflow.py] *)

(** Line 56: [np.mean([embedding1, embedding2], axis=0)].  Two lists of
    different lengths do not make an array: [None] is that [ValueError]. *)
Definition np_mean2 (embedding1 embedding2 : Vec) : option Vec :=
  if Nat.eqb (length embedding1) (length embedding2)
  then Some (map (fun ab => (fst ab + snd ab) / 2)
                 (combine embedding1 embedding2))
  else None.

(** The components of a vector are 8-bit values. *)
Definition is_u8 (v : Vec) : Prop := Forall (fun x => 0 <= x <= 255) v.

(** The components of a vector are 8-bit integers, as the stored
    [uint8] array and the extracted embeddings hold them. *)
Definition is_uint8 (v : Vec) : Prop :=
  Forall (fun x => exists n : Z, (0 <= n <= 255)%Z /\ x = IZR n) v.

End Similarity.

(* ================================================================== *)
(** ** The label migration: [migrate_labels_to_sqlite.py] *)
(* ================================================================== *)

Module Migration.

Local Open Scope string_scope.

(** *** What [json.load] returns *)

#[local] Unset Elimination Schemes.

Inductive json : Type :=
| JNull
| JBool (b : bool)
| JNum (n : Z)
| JFloat (q : Q)
| JStr (s : string)
| JArr (items : list json)
| JObj (fields : list (string * json)).

#[local] Set Elimination Schemes.

Definition type_name (v : json) : string :=
  match v with
  | JNull => "NoneType"
  | JBool _ => "bool"
  | JNum _ => "int"
  | JFloat _ => "float"
  | JStr _ => "str"
  | JArr _ => "list"
  | JObj _ => "dict"
  end.

Definition is_object (v : json) : bool :=
  match v with JObj _ => true | _ => false end.

Fixpoint dict_lookup (key : string) (fields : list (string * json))
  : option json :=
  match fields with
  | [] => None
  | (k, v) :: rest => if String.eqb k key then Some v else dict_lookup key rest
  end.

(** [v.get(key, default)]: only a dict has the method. *)
Definition py_get (v : json) (key : string) (default : json) : result json :=
  match v with
  | JObj fields =>
      ret (match dict_lookup key fields with Some x => x | None => default end)
  | _ => raise (AttributeError (type_name v) "get")
  end.

(** [len(v)]. *)
Definition py_len (v : json) : result nat :=
  match v with
  | JArr items => ret (List.length items)
  | JObj fields => ret (List.length fields)
  | JStr s => ret (String.length s)
  | _ => raise (TypeError ("object of type '" ++ type_name v ++ "' has no len()"))
  end.

(** [for x in v]: the elements of a list, the keys of a dict, the
    characters of a string. *)
Definition py_iter (v : json) : result (list json) :=
  match v with
  | JArr items => ret items
  | JObj fields => ret (map (fun kv => JStr (fst kv)) fields)
  | JStr s => ret (map (fun c => JStr (String c EmptyString))
                       (list_ascii_of_string s))
  | _ => raise (TypeError ("'" ++ type_name v ++ "' object is not iterable"))
  end.

(** *** Paths *)

(** [s.replace(old, '')] for a non-empty [old]: the occurrences of [old]
    are dropped from left to right; [skip] counts the characters of an
    occurrence still to drop. *)
Fixpoint remove_from (old : string) (skip : nat) (s : string) : string :=
  match s with
  | EmptyString => EmptyString
  | String c rest =>
      match skip with
      | S k => remove_from old k rest
      | O =>
          if String.prefix old s
          then remove_from old (String.length old - 1) rest
          else String c (remove_from old O rest)
      end
  end.

Definition str_remove (old s : string) : string := remove_from old O s.

Definition ends_with (suffix s : string) : bool :=
  (String.length suffix <=? String.length s)%nat
  && String.eqb
       (String.substring (String.length s - String.length suffix)
                         (String.length suffix) s)
       suffix.

(** A file of the [viewports/] directory: its name and what opening and
    parsing it gives. *)
Record File : Type := mkFile { name : string; content : result json }.

(** [viewports_dir.glob('*_labels.json')]. *)
Definition glob_labels (dir : list File) : list File :=
  filter (fun f => ends_with "_labels.json" (name f)) dir.

(** [json_file.stem]: the name without its last suffix, here [.json]. *)
Definition stem (f : File) : string :=
  String.substring 0 (String.length (name f) - 5) (name f).

(** Line 49: [viewport_name = json_file.stem.replace('_labels', '')]. *)
Definition viewport_name (f : File) : string := str_remove "_labels" (stem f).

(** [sorted(json_files)]: files of one directory are ordered by name. *)
Fixpoint insert_file (f : File) (fs : list File) : list File :=
  match fs with
  | [] => [f]
  | g :: rest =>
      if String.leb (name f) (name g) then f :: fs
      else g :: insert_file f rest
  end.

Definition sorted (fs : list File) : list File := fold_right insert_file [] fs.

(** *** The label store *)

(** Modelled from the spec: [backend/labels_db.py] is imported by the
    script but is missing from the sources, so the migration is written
    against its interface.  [Store] is the database as persisted;
    [init_db] opens it, creating the schema when absent; [save_label]
    persists one label or raises; [get_label_count] counts the labels of
    a viewport. *)
Record LabelsDb : Type := mkLabelsDb {
  Store : Type;
  init_db : Store -> result Store;
  save_label : string -> json -> Store -> result Store;
  get_label_count : string -> Store -> nat
}.

(** Modelled from the spec: what section 4.5 says of the missing store.
    It is ready once initialised and stays so; a saved label counts for
    its viewport and for no other; whether a record can be saved depends
    on the record, not on what is stored already; a refused record
    leaves the store as it was (the result carries no new store). *)
Record LabelsDbLaws (db : LabelsDb) : Prop := mkLaws {
  init_db_ready :
    forall s s', init_db db s = inr s' -> init_db db s' = inr s';
  save_label_ready :
    forall v l s s',
      init_db db s = inr s -> save_label db v l s = inr s' ->
      init_db db s' = inr s';
  save_label_count :
    forall v l s s' v',
      save_label db v l s = inr s' ->
      get_label_count db v' s'
      = (get_label_count db v' s + if String.eqb v' v then 1 else 0)%nat;
  save_label_record :
    forall v l s1 s2,
      is_ok (save_label db v l s1) = is_ok (save_label db v l s2)
}.

Arguments init_db_ready {db} _ _ _ _.
Arguments save_label_ready {db} _ _ _ _ _ _ _.
Arguments save_label_count {db} _ _ _ _ _ _ _.
Arguments save_label_record {db} _ _ _ _ _.

Inductive MigrationError : Type :=
| RecordError (viewport : string) (label_name : json) (e : PyError)
| FileError (viewport : string) (e : PyError).

Section Migrate.

Variable db : LabelsDb.

(** The variables [migrate] updates as it goes, with the store. *)
Record MigState : Type := mkMigState {
  store : Store db;
  total_labels : nat;
  total_pixels : nat;
  errors : list MigrationError
}.

Definition add_error (s : MigState) (e : MigrationError) : MigState :=
  mkMigState (store s) (total_labels s) (total_pixels s) (errors s ++ [e]).

(** Line 71:
<<
    errors.append(f"{viewport_name}/{label.get('name', 'unknown')}: {e}")
>>
    The handler itself raises when [label] has no [get]. *)
Definition record_failed (viewport : string) (label : json) (e : PyError)
           (s : MigState) : MigState * option PyError :=
  match py_get label "name" (JStr "unknown") with
  | inr label_name => (add_error s (RecordError viewport label_name e), None)
  | inl e' => (s, Some e')
  end.

(** Lines 65-71, the loop over the labels of one file.  The result is
    the state reached, the pixels counted for the viewport, and the
    exception that left the loop, if any. *)
Fixpoint migrate_labels (viewport : string) (labels : list json)
         (s : MigState) (viewport_pixels : nat)
  : MigState * nat * option PyError :=
  match labels with
  | [] => (s, viewport_pixels, None)
  | label :: rest =>
      match save_label db viewport label (store s) with
      | inl e =>
          match record_failed viewport label e s with
          | (s', None) => migrate_labels viewport rest s' viewport_pixels
          | (s', Some e') => (s', viewport_pixels, Some e')
          end
      | inr st' =>
          let s1 := mkMigState st' (total_labels s + 1) (total_pixels s)
                               (errors s) in
          match (pixels <- py_get label "pixels" (JArr []) ;; py_len pixels)
          with
          | inr n => migrate_labels viewport rest s1 (viewport_pixels + n)
          | inl e =>
              match record_failed viewport label e s1 with
              | (s', None) => migrate_labels viewport rest s' viewport_pixels
              | (s', Some e') => (s', viewport_pixels, Some e')
              end
          end
      end
  end.

(** Lines 59-62 and the head of the loop of line 64: the file is read,
    [data.get('labels', [])] is taken and iterated. *)
Definition file_labels (json_file : File) : result (list json) :=
  data <- content json_file ;;
  labels <- py_get data "labels" (JArr []) ;;
  py_iter labels.

(** Lines 48-79, the body of the loop over the files. *)
Definition migrate_file (json_file : File) (s : MigState) : MigState :=
  let viewport := viewport_name json_file in
  let existing_count := get_label_count db viewport (store s) in
  if (0 <? existing_count)%nat then s
  else
    match file_labels json_file with
    | inl e => add_error s (FileError viewport e)
    | inr labels =>
        match migrate_labels viewport labels s 0 with
        | (s', viewport_pixels, None) =>
            mkMigState (store s') (total_labels s')
                       (total_pixels s' + viewport_pixels) (errors s')
        | (s', _, Some e) => add_error s' (FileError viewport e)
        end
    end.

Definition migrate_files (json_files : list File) (s : MigState) : MigState :=
  fold_left (fun acc f => migrate_file f acc) json_files s.

(** [migrate()]: on the database [disk] and the directory [dir].  An
    exception of [init_db] is caught nowhere. *)
Definition migrate (dir : list File) (disk : Store db) : result MigState :=
  st <- init_db db disk ;;
  let start := mkMigState st 0 0 [] in
  let json_files := glob_labels dir in
  match json_files with
  | [] => ret start
  | _ => ret (migrate_files (sorted json_files) start)
  end.

(** The store has been initialised: opening it again changes nothing. *)
Definition ready (st : Store db) : Prop := init_db db st = inr st.

(** A file from which no run saves anything, whatever the store. *)
Definition barren (f : File) : Prop :=
  forall t,
    store (migrate_file f t) = store t /\
    total_labels (migrate_file f t) = total_labels t /\
    total_pixels (migrate_file f t) = total_pixels t.

End Migrate.

Arguments store {db} _.
Arguments total_labels {db} _.
Arguments total_pixels {db} _.
Arguments errors {db} _.
Arguments add_error {db} _ _.

(** *** A label store in the words of the specification *)

Record LabelRow : Type := mkRow {
  row_viewport : string;
  row_name : string;
  row_pixels : list (Z * Z)
}.

(** The database file: whether it can be opened or created, and the
    labels it holds (none while the schema is absent). *)
Record SqliteDb : Type := mkSqlite { openable : bool; labels : list LabelRow }.

Definition parse_pixel (v : json) : result (Z * Z) :=
  match v with
  | JArr [JNum x; JNum y] => ret (x, y)
  | _ => raise (ValueError "pixel is not a pair of integers")
  end.

Fixpoint parse_pixels (vs : list json) : result (list (Z * Z)) :=
  match vs with
  | [] => ret []
  | v :: rest =>
      p <- parse_pixel v ;; ps <- parse_pixels rest ;; ret (p :: ps)
  end.

Definition parse_label (viewport : string) (label : json) : result LabelRow :=
  match label with
  | JObj fields =>
      match dict_lookup "name" fields with
      | Some (JStr n) =>
          match dict_lookup "pixels" fields with
          | Some (JArr ps) =>
              pixels <- parse_pixels ps ;; ret (mkRow viewport n pixels)
          | Some _ => raise (TypeError "pixels is not a list")
          | None => raise (KeyError "pixels")
          end
      | Some _ => raise (TypeError "name is not a string")
      | None => raise (KeyError "name")
      end
  | _ => raise (TypeError "label is not an object")
  end.

(** Modelled from the spec: [backend/labels_db.py] is missing from the
    sources.  Section 4.5: [init_db] creates the schema if absent and
    fails only when the store cannot be created or opened; [save_label]
    persists a label (viewport, name) with its pixel set, and a
    malformed record, such as one without its pixel list, is refused;
    [get_label_count] is the number of labels of a viewport. *)
Definition sqlite : LabelsDb :=
  mkLabelsDb
    SqliteDb
    (fun d : SqliteDb =>
       if openable d then ret d
       else raise (OperationalError "unable to open database file"))
    (fun viewport label d =>
       row <- parse_label viewport label ;;
       ret (mkSqlite (openable d) (labels d ++ [row])))
    (fun viewport d =>
       List.length
         (filter (fun r => String.eqb (row_viewport r) viewport) (labels d))).

(** The number of pixels stored, over all labels. *)
Definition pixel_count (d : SqliteDb) : nat :=
  fold_right (fun r n => (List.length (row_pixels r) + n)%nat) 0%nat (labels d).

(** *** Legacy files used in the scenarios *)

Definition label_json (n : string) (pixels : list (Z * Z)) : json :=
  JObj [("name", JStr n);
        ("pixels", JArr (map (fun p => JArr [JNum (fst p); JNum (snd p)])
                             pixels))].

(** Scenario D: two valid labels around one without its pixel list. *)
Definition scenario_D_file : File :=
  mkFile "city_labels.json"
         (ret (JObj [("labels",
                      JArr [label_json "road" [(1, 2); (3, 4)]%Z;
                            JObj [("name", JStr "broken")];
                            label_json "water" [(5, 6)]%Z])])).

(** A file whose first entry is not an object. *)
Definition stray_entry_file : File :=
  mkFile "city_labels.json"
         (ret (JObj [("labels",
                      JArr [JNum 5; label_json "water" [(5, 6)]%Z])])).

(** The same valid label on its own. *)
Definition water_only_file : File :=
  mkFile "city_labels.json"
         (ret (JObj [("labels", JArr [label_json "water" [(5, 6)]%Z])])).

(** A file whose second entry is not an object, after a valid label. *)
Definition interrupted_file : File :=
  mkFile "city_labels.json"
         (ret (JObj [("labels",
                      JArr [label_json "road" [(1, 2); (3, 4)]%Z;
                            JNum 5])])).

(** A second file whose name yields the viewport [city] as well. *)
Definition twin_file : File :=
  mkFile "city_labels_labels.json"
         (ret (JObj [("labels", JArr [label_json "park" [(7, 8)]%Z])])).

Definition empty_db : SqliteDb := mkSqlite true [].

(** The state the first run over Scenario D ends in. *)
Definition scenario_D_first : MigState sqlite :=
  mkMigState sqlite
    (mkSqlite true
       [mkRow "city" "road" [(1, 2); (3, 4)]%Z;
        mkRow "city" "water" [(5, 6)]%Z])
    2 3
    [RecordError "city" (JStr "broken") (KeyError "pixels")].

Definition locked_db : SqliteDb := mkSqlite false [].

End Migration.

(* ================================================================== *)
(** ** The standalone viewer: [create_web_viewer.py] *)
(* ================================================================== *)

Module Viewer.

Local Open Scope string_scope.

(** *** Values and names *)

#[local] Unset Elimination Schemes.

Inductive pyval : Type :=
| VNone
| VStr (s : string)
| VInt (n : Z)
| VFloat (q : Q)
| VList (items : list pyval)
| VPath (path : string)
| VGlobal (name : string).

#[local] Set Elimination Schemes.

Definition type_name (v : pyval) : string :=
  match v with
  | VNone => "NoneType"
  | VStr _ => "str"
  | VInt _ => "int"
  | VFloat _ => "float"
  | VList _ => "list"
  | VPath _ => "PosixPath"
  | VGlobal _ => "object"
  end.

(** Python's truth value of an optional string: [None] and [''] are
    false. *)
Definition truthy (viewport_id : option string) : bool :=
  match viewport_id with
  | None => false
  | Some s => negb (String.eqb s "")
  end.

(** The names bound at module level when the function runs: imports,
    constants, functions, and the variables of the [__main__] block. *)
Definition module_globals : list string :=
  [ "sys"; "json"; "Path"; "base64"; "Image"; "rasterio";
    "transform_bounds"; "get_active_viewport"; "DATA_DIR"; "PYRAMIDS_DIR";
    "YEARS"; "get_image_bounds"; "create_html_viewer"; "viewport_id";
    "viewport_bounds"; "viewport"; "__name__"; "__file__" ].

(** The builtins the module refers to; no builtin has a name in capital
    letters only. *)
Definition builtins : list string :=
  [ "list"; "range"; "str"; "max"; "open"; "print"; "Exception";
    "True"; "False"; "None" ].

Definition Locals : Type := list (string * pyval).

Fixpoint lookup_local (id : string) (env : Locals) : option pyval :=
  match env with
  | [] => None
  | (k, v) :: rest => if String.eqb k id then Some v else lookup_local id rest
  end.

Definition mem (id : string) (names : list string) : bool :=
  existsb (String.eqb id) names.

(** Reading a name inside the function: a local, else a global or a
    builtin, else [NameError]. *)
Definition lookup_name (id : string) (env : Locals) : result pyval :=
  match lookup_local id env with
  | Some v => ret v
  | None =>
      if mem id module_globals || mem id builtins then ret (VGlobal id)
      else raise (NameError id)
  end.

(** *** [str.title()], for ASCII *)

Definition is_lower (c : ascii) : bool :=
  let n := nat_of_ascii c in (97 <=? n)%nat && (n <=? 122)%nat.

Definition is_upper (c : ascii) : bool :=
  let n := nat_of_ascii c in (65 <=? n)%nat && (n <=? 90)%nat.

Definition to_upper (c : ascii) : ascii :=
  if is_lower c then ascii_of_nat (nat_of_ascii c - 32) else c.

Definition to_lower (c : ascii) : ascii :=
  if is_upper c then ascii_of_nat (nat_of_ascii c + 32) else c.

Fixpoint title_from (inside_word : bool) (s : string) : string :=
  match s with
  | EmptyString => EmptyString
  | String c rest =>
      if is_lower c || is_upper c
      then String (if inside_word then to_lower c else to_upper c)
                  (title_from true rest)
      else String c (title_from false rest)
  end.

Definition str_title (s : string) : string := title_from false s.

(** *** f-strings *)

(** The replacement fields the template uses: a name, or a call of a
    method without arguments on a name. *)
Inductive expr : Type :=
| Name (id : string)
| MethodCall (obj : expr) (method : string).

Inductive segment : Type :=
| Lit (text : string)
| Field (e : expr).

(** A piece of the finished text: literal text, or a value to be
    written with [str()]. *)
Inductive chunk : Type :=
| Text (text : string)
| Shown (v : pyval).

Fixpoint eval (env : Locals) (e : expr) : result pyval :=
  match e with
  | Name id => lookup_name id env
  | MethodCall obj method =>
      v <- eval env obj ;;
      match v with
      | VStr s =>
          if String.eqb method "title" then ret (VStr (str_title s))
          else raise (AttributeError "str" method)
      | _ => raise (AttributeError (type_name v) method)
      end
  end.

(** The fields are evaluated from left to right; the first exception
    ends the evaluation. *)
Fixpoint format (env : Locals) (segments : list segment)
  : result (list chunk) :=
  match segments with
  | [] => ret []
  | Lit text :: rest =>
      chunks <- format env rest ;; ret (Text text :: chunks)
  | Field e :: rest =>
      v <- eval env e ;;
      chunks <- format env rest ;; ret (Shown v :: chunks)
  end.

(** Lines 77-400, the template of the page.  The literal text between
    the replacement fields is abridged; the fields are all there, in
    their order. *)
Definition html_template : list segment :=
  [ Lit "<!DOCTYPE html><html><head><meta charset=utf-8><title>";
    Field (MethodCall (Name "viewport_id") "title");
    Lit " Tessera Embeddings Viewer</title> ... <body><h1>";
    Field (MethodCall (Name "viewport_id") "title");
    Lit " Tessera Embeddings Interactive Viewer</h1> ... const center = ";
    Field (Name "CENTER");
    Lit "; const zoom = ";
    Field (Name "INITIAL_ZOOM");
    Lit "; const bounds = ";
    Field (Name "bounds");
    Lit "; ... localStorage.setItem('";
    Field (Name "viewport_id");
    Lit "_labels', JSON.stringify(labels)); ... localStorage.getItem('";
    Field (Name "viewport_id");
    Lit "_labels'); ... </script></body></html>" ].

(** *** The world around the function *)

Definition Bounds : Type := (Q * Q * Q * Q)%type.

(** An open GeoTIFF: [src.bounds] as (left, bottom, right, top) and
    [str(src.crs)]. *)
Record Raster : Type := mkRaster { raster_bounds : Bounds; crs : string }.

(** The sample image [PYRAMIDS_DIR/2024/level_4.tif], when it exists,
    and the files written so far. *)
Record World : Type := mkWorld {
  sample_img : option Raster;
  written : list (string * list chunk)
}.

Definition pair_list (a b : Q) : pyval := VList [VFloat a; VFloat b].

Section CreateViewer.

(** [rasterio.warp.transform_bounds], an external library function. *)
Variable transform_bounds : string -> string -> Bounds -> Bounds.

(** Lines 24-31. *)
Definition get_image_bounds (src : Raster) : pyval :=
  let bounds :=
    if negb (String.eqb (crs src) "EPSG:4326")
    then transform_bounds (crs src) "EPSG:4326" (raster_bounds src)
    else raster_bounds src in
  let '(b0, b1, b2, b3) := bounds in
  VList [pair_list b1 b0; pair_list b3 b2].

(** [max(a, b)]. *)
Definition py_max (a b : Q) : Q := if negb (Qle_bool b a) then b else a.

(** [a < b]. *)
Definition Qlt_b (a b : Q) : bool := negb (Qle_bool b a).

Definition opt_str (o : option string) : pyval :=
  match o with Some s => VStr s | None => VNone end.

(** Lines 36-40. *)
Definition output_name (viewport_id : option string) : string :=
  match viewport_id with
  | Some id => if truthy viewport_id then id ++ "_viewer.html"
               else "bangalore_viewer.html"
  | None => "bangalore_viewer.html"
  end.

(** An assignment to a local variable; the latest one is read first. *)
Definition assign (id : string) (v : pyval) (env : Locals) : Locals :=
  (id, v) :: env.

(** Lines 52-60. *)
Definition zoom_for (extent : Q) : Z :=
  if Qlt_b extent 0.05 then 15
  else if Qlt_b extent 0.1 then 14
  else if Qlt_b extent 0.2 then 13
  else 12.

(** Lines 33-75: the local variables when the template is reached. *)
Definition locals_at_template (viewport_id : option string)
           (viewport_bounds : option Bounds) (w : World) : Locals :=
  let env :=
    assign "viewport_bounds"
           (match viewport_bounds with
            | Some (b0, b1, b2, b3) =>
                VList [VFloat b0; VFloat b1; VFloat b2; VFloat b3]
            | None => VNone
            end)
           (assign "viewport_id" (opt_str viewport_id) []) in
  let env := assign "output_html" (VPath (output_name viewport_id)) env in
  let env :=
    match viewport_bounds with
    | Some (b0, b1, b2, b3) =>
        let env :=
          assign "center" (pair_list ((b0 + b2) / 2) ((b1 + b3) / 2)) env in
        let lat_extent := (b2 - b0)%Q in
        let lon_extent := (b3 - b1)%Q in
        let env := assign "lat_extent" (VFloat lat_extent) env in
        let env := assign "lon_extent" (VFloat lon_extent) env in
        let extent := py_max lat_extent lon_extent in
        let env := assign "extent" (VFloat extent) env in
        let env := assign "initial_zoom" (VInt (zoom_for extent)) env in
        assign "bounds" (VList [pair_list b0 b1; pair_list b2 b3]) env
    | None =>
        let env := assign "center" (pair_list 12.97 77.59) env in
        let env := assign "initial_zoom" (VInt 12) env in
        let env :=
          assign "bounds"
                 (VList [pair_list 12.83 77.46; pair_list 13.14 77.78]) env in
        assign "viewport_id" (VStr "bangalore") env
    end in
  let env :=
    assign "sample_img" (VPath "~/blore_data/pyramids/2024/level_4.tif") env in
  match sample_img w with
  | Some src => assign "bounds" (get_image_bounds src) env
  | None => env
  end.

(** Lines 33-403: the result of the call and the world it leaves. *)
Definition create_html_viewer (viewport_id : option string)
           (viewport_bounds : option Bounds) (w : World)
  : result unit * World :=
  let env := locals_at_template viewport_id viewport_bounds w in
  match format env html_template with
  | inl e => (raise e, w)
  | inr html =>
      (ret tt,
       mkWorld (sample_img w)
               ((output_name viewport_id, html) :: written w))
  end.

End CreateViewer.

(** The arguments of the [__main__] block when no viewport can be read,
    and a call with bounds but no id. *)
Definition bangalore_bounds : Bounds := (12.83, 77.46, 13.14, 77.78)%Q.

Definition empty_world : World := mkWorld None [].

(** *** The script *)

(** The dictionary of [get_active_viewport()], as far as the script
    reads it: the entries under ['viewport_id'] and ['bounds_tuple'],
    each absent ([None]) or holding a value that may itself be [None]. *)
Record ActiveViewport : Type := mkActive {
  entry_viewport_id : option (option string);
  entry_bounds_tuple : option (option Bounds)
}.

(** Lines 410-422.  Both variables start as [None]; an exception of
    [get_active_viewport] or of a subscript leaves what was assigned
    before it. *)
Definition main_arguments (active : result ActiveViewport)
  : option string * option Bounds :=
  match active with
  | inl _ => (None, None)
  | inr viewport =>
      match entry_viewport_id viewport with
      | None => (None, None)
      | Some viewport_id =>
          match entry_bounds_tuple viewport with
          | None => (viewport_id, None)
          | Some viewport_bounds => (viewport_id, viewport_bounds)
          end
      end
  end.

Definition main (transform_bounds : string -> string -> Bounds -> Bounds)
           (active : result ActiveViewport) (w : World)
  : result unit * World :=
  let (viewport_id, viewport_bounds) := main_arguments active in
  create_html_viewer transform_bounds viewport_id viewport_bounds w.

End Viewer.

(* ================================================================== *)
(** ** The satellite download: [deprecated/download_satellite_rgb.py] *)
(* ================================================================== *)

Module Download.

Local Open Scope Q_scope.

(** [np.clip(x, lo, hi)]: [minimum(maximum(x, lo), hi)]. *)
Definition np_clip (x lo hi : Q) : Q :=
  let m := if Qle_bool lo x then x else lo in
  if Qle_bool m hi then m else hi.

(** Line 135, for one sample of a band:
<<
    rgb_data = np.clip(rgb_data / 3000 * 255, 0, 255).astype(np.uint8)
>>
    The conversion of a value between 0 and 255 to [uint8] drops its
    fraction. *)
Definition to_uint8 (x : Q) : Z := Qfloor (np_clip (x / 3000 * 255) 0 255).

End Download.

(* ================================================================== *)
(** * Properties *)
(* ================================================================== *)

Module SimilarityProps.

Import Similarity.
Local Open Scope R_scope.

(** *** Sums *)

Lemma sum_upto_ext (n : nat) (f g : nat -> R) :
  (forall i, (i < n)%nat -> f i = g i) -> sum_upto n f = sum_upto n g.
Proof.
  induction n as [|n IH]; intros Hfg; simpl.
  - reflexivity.
  - rewrite IH by (intros i Hi; apply Hfg; lia).
    rewrite Hfg by lia. reflexivity.
Qed.

Lemma sum_upto_head (n : nat) (f : nat -> R) :
  sum_upto (S n) f = f O + sum_upto n (fun i => f (S i)).
Proof.
  induction n as [|n IH].
  - simpl. lra.
  - change (sum_upto (S (S n)) f) with (sum_upto (S n) f + f (S n)).
    rewrite IH. simpl. lra.
Qed.

Lemma np_sum_sq_sub (a b : Vec) :
  length a = length b ->
  np_sum (map (fun x => x ^ 2) (sub_row a b))
  = sum_upto (length a) (fun i => (nth i b 0 - nth i a 0) ^ 2).
Proof.
  revert b. induction a as [|x a IH]; intros [|y b] Hlen;
    try discriminate Hlen.
  - reflexivity.
  - injection Hlen as Hlen.
    change (length (x :: a)) with (S (length a)).
    rewrite sum_upto_head. unfold sub_row in *.
    cbn [combine map np_sum fold_right fst snd nth].
    fold (np_sum (map (fun x => x ^ 2)
                      (map (fun ab => fst ab - snd ab) (combine a b)))).
    rewrite IH by assumption. ring.
Qed.

Lemma np_sum_sq_nonneg (v : Vec) : 0 <= np_sum (map (fun x => x ^ 2) v).
Proof.
  induction v as [|x v IH]; cbn [map np_sum fold_right].
  - lra.
  - fold (np_sum (map (fun x => x ^ 2) v)).
    pose proof (pow2_ge_0 x). lra.
Qed.

(** *** Shapes *)

Lemma broadcast_cols_same (d : nat) : broadcast_cols d d = Some d.
Proof. unfold broadcast_cols. rewrite Nat.eqb_refl. reflexivity. Qed.

Lemma stretch_same (v : Vec) : stretch (length v) v = v.
Proof. unfold stretch. rewrite Nat.eqb_refl. reflexivity. Qed.

Lemma div255_length (v : Vec) : length (div255 v) = length v.
Proof. apply length_map. Qed.

Lemma nth_div255 (i : nat) (v : Vec) : nth i (div255 v) 0 = nth i v 0 / 255.
Proof.
  unfold div255. replace 0 with (0 / 255) at 1 by lra.
  apply (map_nth (fun x => x / 255)).
Qed.

(** When the column counts agree, [distances] is [row_distance] on every
    stored row. *)
Lemma distances_equal_dim (embedding : Vec) (all_embeddings : Array2) :
  ncols all_embeddings = length embedding ->
  well_shaped all_embeddings ->
  distances embedding all_embeddings
  = Some (map (row_distance embedding) (rows all_embeddings)).
Proof.
  intros Hcols Hshape. unfold distances.
  rewrite div255_length, Hcols, broadcast_cols_same.
  f_equal. rewrite !map_map. apply map_ext_in.
  intros row Hrow. unfold row_distance.
  unfold well_shaped in Hshape. rewrite Forall_forall in Hshape.
  specialize (Hshape row Hrow). rewrite Hcols in Hshape.
  rewrite <- (div255_length embedding) at 2. rewrite stretch_same.
  rewrite <- Hshape, <- (div255_length row). rewrite stretch_same.
  reflexivity.
Qed.

Lemma row_distance_spec (D : nat) (query stored : Vec) :
  length query = D -> length stored = D ->
  row_distance query stored
  = euclidean_spec D (normalize_spec query) (normalize_spec stored).
Proof.
  intros Hq Hs. unfold row_distance, euclidean_spec, normalize_spec.
  rewrite np_sum_sq_sub by (rewrite !div255_length; congruence).
  rewrite div255_length, Hs. reflexivity.
Qed.

(** C1.  For a query and stored embeddings of one dimensionality D, the
    script computes a distance for every stored pixel, and that distance
    is the Euclidean distance sqrt(sum_i (query[i] - stored[i])^2) of the
    two vectors after each component has been divided by 255. *)
Theorem distances_euclidean (D : nat) (query : Vec) (all_embeddings : Array2) :
  length query = D ->
  ncols all_embeddings = D ->
  well_shaped all_embeddings ->
  exists ds,
    distances query all_embeddings = Some ds /\
    length ds = length (rows all_embeddings) /\
    forall i stored,
      nth_error (rows all_embeddings) i = Some stored ->
      nth_error ds i
      = Some (euclidean_spec D (normalize_spec query) (normalize_spec stored)).
Proof.
  intros Hq Hcols Hshape.
  exists (map (row_distance query) (rows all_embeddings)).
  split; [|split].
  - apply distances_equal_dim; congruence.
  - apply length_map.
  - intros i stored Hi. rewrite nth_error_map, Hi. simpl. f_equal.
    apply row_distance_spec; [assumption|].
    unfold well_shaped in Hshape. rewrite Forall_forall in Hshape.
    rewrite <- Hcols. apply Hshape. eapply nth_error_In; eassumption.
Qed.

Lemma distances_euclidean_witness :
  exists ds,
    distances [0; 255] (mkArray2 2 [[0; 0]; [255; 255]]) = Some ds /\
    length ds = 2%nat /\
    forall i stored,
      nth_error [[0; 0]; [255; 255]] i = Some stored ->
      nth_error ds i
      = Some (euclidean_spec 2 (normalize_spec [0; 255])
                             (normalize_spec stored)).
Proof.
  apply (distances_euclidean 2 [0; 255] (mkArray2 2 [[0; 0]; [255; 255]])).
  - reflexivity.
  - reflexivity.
  - repeat constructor.
Defined.

(** *** The filter and the count *)

Lemma Rle_b_true (a b : R) : Rle_b a b = true <-> a <= b.
Proof.
  unfold Rle_b. destruct (Rle_dec a b); split; intros; auto; discriminate.
Qed.

Lemma Rle_b_false (a b : R) : Rle_b a b = false <-> b < a.
Proof.
  unfold Rle_b. destruct (Rle_dec a b); split; intros; auto;
    try discriminate; lra.
Qed.

Lemma row_distance_nonneg (q e : Vec) : 0 <= row_distance q e.
Proof. apply sqrt_pos. Qed.

Lemma count_cons (d : R) (ds : list R) (th : R) :
  count (d :: ds) th = ((if Rle_b d th then 1 else 0) + count ds th)%nat.
Proof. unfold count. simpl. destruct (Rle_b d th); reflexivity. Qed.

Lemma count_monotone (ds : list R) (t1 t2 : R) :
  t1 <= t2 -> (count ds t1 <= count ds t2)%nat.
Proof.
  intros Ht. induction ds as [|d ds IH].
  - apply Nat.le_refl.
  - rewrite !count_cons.
    destruct (Rle_b d t1) eqn:H1.
    + apply Rle_b_true in H1.
      assert (H2 : Rle_b d t2 = true) by (apply Rle_b_true; lra).
      rewrite H2. lia.
    + destruct (Rle_b d t2); lia.
Qed.

Lemma combine_fst_map (f : Vec -> R) (set : EmbeddingSet) :
  combine (map fst set) (map f (map snd set))
  = map (fun e => (fst e, f (snd e))) set.
Proof.
  induction set as [|[p e] set IH]; simpl; [reflexivity|].
  rewrite IH. reflexivity.
Qed.

Lemma within_length (set : EmbeddingSet) (ds : list R) (t : R) :
  length ds = length set -> length (within set ds t) = count ds t.
Proof.
  unfold within. revert ds.
  induction set as [|[p e] set IH]; intros [|d ds] Hlen;
    try discriminate Hlen; [reflexivity|].
  injection Hlen as Hlen. rewrite count_cons. simpl.
  destruct (Rle_b d t); simpl; rewrite IH by assumption; reflexivity.
Qed.

Lemma in_within (set : EmbeddingSet) (q : Vec) (t : R) (p : PixelAddress)
      (d : R) :
  In (p, d) (within set (map (row_distance q) (map snd set)) t)
  <-> exists e, In (p, e) set /\ row_distance q e = d /\ d <= t.
Proof.
  unfold within. rewrite combine_fst_map, filter_In, in_map_iff. simpl.
  rewrite Rle_b_true. split.
  - intros [[[p' e] [Heq Hin]] Hle]. simpl in Heq.
    injection Heq as -> <-. exists e. auto.
  - intros [e [Hin [<- Hle]]]. split; [|assumption].
    exists (p, e). auto.
Qed.

(** *** The sort *)

Lemma insert_match_perm (m : Match) (ms : list Match) :
  Permutation (insert_match m ms) (m :: ms).
Proof.
  induction ms as [|m' ms IH]; simpl.
  - apply Permutation_refl.
  - destruct (Rle_dec (distance m) (distance m')).
    + apply Permutation_refl.
    + eapply perm_trans; [apply perm_skip, IH | apply perm_swap].
Qed.

Lemma sort_matches_perm (ms : list Match) : Permutation (sort_matches ms) ms.
Proof.
  induction ms as [|m ms IH]; simpl.
  - apply perm_nil.
  - eapply perm_trans; [apply insert_match_perm | apply perm_skip, IH].
Qed.

Lemma in_sort_matches (m : Match) (ms : list Match) :
  In m (sort_matches ms) <-> In m ms.
Proof.
  split; apply Permutation_in;
    [apply sort_matches_perm | apply Permutation_sym, sort_matches_perm].
Qed.

Lemma sort_matches_length (ms : list Match) :
  length (sort_matches ms) = length ms.
Proof. apply Permutation_length, sort_matches_perm. Qed.

Lemma insert_match_sorted (m : Match) (ms : list Match) :
  Sorted (fun a b => distance a <= distance b) ms ->
  Sorted (fun a b => distance a <= distance b) (insert_match m ms).
Proof.
  induction ms as [|m' ms IH]; intros Hs; simpl.
  - repeat constructor.
  - destruct (Rle_dec (distance m) (distance m')) as [Hle|Hgt].
    + constructor; [assumption | constructor; assumption].
    + inversion Hs as [|? ? Hrest Hhd]; subst.
      constructor; [apply IH; assumption|].
      destruct ms as [|m'' ms]; simpl.
      * constructor. lra.
      * destruct (Rle_dec (distance m) (distance m'')).
        -- constructor. lra.
        -- inversion Hhd; subst. constructor. assumption.
Qed.

(** The matches come back in ascending order of distance. *)
Lemma sort_matches_sorted (ms : list Match) :
  Sorted (fun a b => distance a <= distance b) (sort_matches ms).
Proof.
  induction ms as [|m ms IH]; simpl.
  - constructor.
  - apply insert_match_sorted. assumption.
Qed.

(** *** The search on a set of one dimensionality *)

Section SearchFacts.

Variable pixel_to_geo : PixelAddress -> R * R.

Lemma to_match_pixel (pd : PixelAddress * R) :
  pixel (to_match pixel_to_geo pd) = fst pd.
Proof. unfold to_match. destruct (pixel_to_geo (fst pd)). reflexivity. Qed.

Lemma to_match_distance (pd : PixelAddress * R) :
  distance (to_match pixel_to_geo pd) = snd pd.
Proof. unfold to_match. destruct (pixel_to_geo (fst pd)). reflexivity. Qed.

Lemma uniform_dim_forallb (D : nat) (set : EmbeddingSet) :
  uniform_dim D set ->
  forallb (fun e => Nat.eqb (length (snd e)) D) set = true.
Proof.
  intros H. apply forallb_forall. intros e He.
  unfold uniform_dim in H. rewrite Forall_forall in H.
  apply Nat.eqb_eq. auto.
Qed.

Lemma uniform_dim_shape (D : nat) (set : EmbeddingSet) :
  uniform_dim D set -> well_shaped (mkArray2 D (map snd set)).
Proof.
  unfold uniform_dim, well_shaped. simpl. rewrite !Forall_forall.
  intros H r Hr. apply in_map_iff in Hr as [e [<- He]]. auto.
Qed.

Lemma distances_of_set (set : EmbeddingSet) (q : Vec) :
  uniform_dim (length q) set ->
  distances q (mkArray2 (length q) (map snd set))
  = Some (map (row_distance q) (map snd set)).
Proof.
  intros H. rewrite distances_equal_dim; [reflexivity | reflexivity |].
  apply uniform_dim_shape. assumption.
Qed.

Lemma search_equal_dim (set : EmbeddingSet) (q : Vec) (t : R) :
  uniform_dim (length q) set ->
  search pixel_to_geo set q t
  = inr (sort_matches
           (map (to_match pixel_to_geo)
                (within set (map (row_distance q) (map snd set)) t)),
         mkStats (length set)).
Proof.
  intros H. unfold search.
  rewrite (uniform_dim_forallb _ _ H), (distances_of_set _ _ H).
  reflexivity.
Qed.

Lemma in_search_matches (set : EmbeddingSet) (q : Vec) (t : R)
      (p : PixelAddress) (d : R) :
  (exists m,
      In m (sort_matches
              (map (to_match pixel_to_geo)
                   (within set (map (row_distance q) (map snd set)) t))) /\
      pixel m = p /\ distance m = d)
  <-> exists e, In (p, e) set /\ row_distance q e = d /\ d <= t.
Proof.
  rewrite <- in_within. split.
  - intros [m [Hm [Hp Hd]]]. apply (proj1 (in_sort_matches _ _)) in Hm.
    apply in_map_iff in Hm as [[p' d'] [<- Hin]].
    rewrite to_match_pixel in Hp. rewrite to_match_distance in Hd.
    simpl in Hp, Hd. subst. assumption.
  - intros Hin. exists (to_match pixel_to_geo (p, d)).
    split; [|split].
    + apply (proj2 (in_sort_matches _ _)), in_map. assumption.
    + apply to_match_pixel.
    + apply to_match_distance.
Qed.

(** Scenario B: an empty set gives no match and no error. *)
Lemma search_empty (q : Vec) (t : R) :
  search pixel_to_geo [] q t = inr ([], mkStats 0).
Proof.
  unfold search, distances. cbn [forallb map ncols rows].
  rewrite div255_length, broadcast_cols_same. reflexivity.
Qed.

(** Scenario C: a stored embedding of another dimensionality than the
    query's makes the search fail, with no partial result. *)
Lemma search_dimension_mismatch (set : EmbeddingSet) (q : Vec) (t : R)
      (p : PixelAddress) (e : Embedding) :
  In (p, e) set -> length e <> length q ->
  search pixel_to_geo set q t = inl DimensionMismatch.
Proof.
  intros Hin Hlen. unfold search.
  destruct (forallb (fun e0 => Nat.eqb (length (snd e0)) (length q)) set)
    eqn:Hall; [|reflexivity].
  rewrite forallb_forall in Hall. specialize (Hall (p, e) Hin).
  apply Nat.eqb_eq in Hall. contradiction.
Qed.

End SearchFacts.

(** C2.  On a set whose embeddings have the query's dimensionality the
    search returns, and a pixel is among its matches exactly when its
    distance to the query is at most the threshold; a pixel at distance
    exactly the threshold is therefore returned.  The number of matches
    is the count the diagnostic script prints for that threshold. *)
Theorem search_match_set (pixel_to_geo : PixelAddress -> R * R)
        (set : EmbeddingSet) (query : Vec) (t : R) :
  uniform_dim (length query) set ->
  exists matches,
    search pixel_to_geo set query t = inr (matches, mkStats (length set)) /\
    (forall p d,
        (exists m, In m matches /\ pixel m = p /\ distance m = d)
        <-> (exists e, In (p, e) set /\ row_distance query e = d /\ d <= t)) /\
    (forall p e,
        In (p, e) set -> row_distance query e = t ->
        exists m, In m matches /\ pixel m = p /\ distance m = t) /\
    match_count query (mkArray2 (length query) (map snd set)) t
    = Some (length matches).
Proof.
  intros Hdim. eexists. split; [apply search_equal_dim; assumption|].
  split; [|split].
  - intros p d. apply in_search_matches.
  - intros p e Hin Hd. apply in_search_matches.
    exists e. repeat split; [assumption | assumption | lra].
  - unfold match_count. rewrite distances_of_set by assumption. simpl.
    rewrite sort_matches_length, length_map, within_length;
      [reflexivity | rewrite !length_map; reflexivity].
Qed.

Lemma search_match_set_witness :
  uniform_dim 2 scenario_A /\
  exists matches,
    search (fun _ => (0, 0)) scenario_A [0; 0] 1
    = inr (matches, mkStats 3) /\
    (forall p d,
        (exists m, In m matches /\ pixel m = p /\ distance m = d)
        <-> (exists e, In (p, e) scenario_A /\
                       row_distance [0; 0] e = d /\ d <= 1)) /\
    (forall p e,
        In (p, e) scenario_A -> row_distance [0; 0] e = 1 ->
        exists m, In m matches /\ pixel m = p /\ distance m = 1) /\
    match_count [0; 0] (mkArray2 2 (map snd scenario_A)) 1
    = Some (length matches).
Proof.
  assert (H : uniform_dim 2 scenario_A) by (repeat constructor).
  split; [exact H|].
  exact (search_match_set (fun _ => (0, 0)) scenario_A [0; 0] 1 H).
Defined.

(** C6.  For a fixed query and a fixed array of stored embeddings of its
    dimensionality, the script's match count exists for every threshold
    and does not decrease when the threshold grows. *)
Theorem match_count_monotone (query : Vec) (all_embeddings : Array2)
        (t1 t2 : R) :
  ncols all_embeddings = length query ->
  well_shaped all_embeddings ->
  t1 < t2 ->
  exists n1 n2,
    match_count query all_embeddings t1 = Some n1 /\
    match_count query all_embeddings t2 = Some n2 /\
    (n1 <= n2)%nat.
Proof.
  intros Hcols Hshape Ht. unfold match_count.
  rewrite distances_equal_dim by assumption. simpl.
  do 2 eexists. split; [reflexivity|]. split; [reflexivity|].
  apply count_monotone. lra.
Qed.

Lemma match_count_monotone_witness :
  (2 = length [0; 0])%nat /\
  well_shaped (mkArray2 2 (map snd scenario_A)) /\
  1 < 20 /\
  exists n1 n2,
    match_count [0; 0] (mkArray2 2 (map snd scenario_A)) 1 = Some n1 /\
    match_count [0; 0] (mkArray2 2 (map snd scenario_A)) 20 = Some n2 /\
    (n1 <= n2)%nat.
Proof.
  assert (Hs : well_shaped (mkArray2 2 (map snd scenario_A)))
    by (repeat constructor).
  assert (Ht : 1 < 20) by lra.
  split; [reflexivity|]. split; [exact Hs|]. split; [exact Ht|].
  exact (match_count_monotone [0; 0] (mkArray2 2 (map snd scenario_A))
                              1 20 eq_refl Hs Ht).
Defined.

(** *** Exact matches *)

Lemma np_sum_sq_self (v : Vec) :
  np_sum (map (fun x => x ^ 2) (sub_row v v)) = 0.
Proof.
  unfold sub_row. induction v as [|x v IH].
  - reflexivity.
  - cbn [combine map np_sum fold_right fst snd].
    fold (np_sum (map (fun x => x ^ 2)
                      (map (fun ab => fst ab - snd ab) (combine v v)))).
    rewrite IH. ring.
Qed.

Lemma row_distance_self (e : Vec) : row_distance e e = 0.
Proof. unfold row_distance. rewrite np_sum_sq_self. apply sqrt_0. Qed.

(** C7.  Searching with the embedding stored for a pixel P at threshold
    0 returns a list that holds P at distance 0; and at every threshold
    at most 0 every returned match has distance 0. *)
Theorem search_self_match (pixel_to_geo : PixelAddress -> R * R)
        (D : nat) (set : EmbeddingSet) (P : PixelAddress) (e : Embedding)
        (query : Vec) (t : R) :
  uniform_dim D set ->
  extracted set P e ->
  length query = D ->
  t <= 0 ->
  (exists matches,
      search pixel_to_geo set e 0 = inr (matches, mkStats (length set)) /\
      exists m, In m matches /\ pixel m = P /\ distance m = 0) /\
  (exists matches,
      search pixel_to_geo set query t = inr (matches, mkStats (length set)) /\
      forall m, In m matches -> distance m = 0).
Proof.
  intros Hdim Hin Hq Ht. unfold extracted in Hin.
  assert (He : length e = D).
  { unfold uniform_dim in Hdim. rewrite Forall_forall in Hdim.
    apply (Hdim (P, e) Hin). }
  split.
  - eexists. split; [apply search_equal_dim; rewrite He; assumption|].
    apply in_search_matches. exists e.
    repeat split; [assumption | apply row_distance_self | lra].
  - eexists.
    split; [apply search_equal_dim; rewrite Hq; assumption|].
    intros m Hm.
    assert (Hex : exists e', In (pixel m, e') set /\
                             row_distance query e' = distance m /\
                             distance m <= t).
    { apply (in_search_matches pixel_to_geo). exists m. auto. }
    destruct Hex as [e' [_ [Hd Hle]]].
    pose proof (row_distance_nonneg query e'). lra.
Qed.

Lemma search_self_match_witness :
  uniform_dim 2 scenario_A /\
  extracted scenario_A pixel1 [0; 255] /\
  length [0; 0] = 2%nat /\
  -1 <= 0 /\
  (exists matches,
      search (fun _ => (0, 0)) scenario_A [0; 255] 0
      = inr (matches, mkStats 3) /\
      exists m, In m matches /\ pixel m = pixel1 /\ distance m = 0) /\
  (exists matches,
      search (fun _ => (0, 0)) scenario_A [0; 0] (-1)
      = inr (matches, mkStats 3) /\
      forall m, In m matches -> distance m = 0).
Proof.
  assert (Hd : uniform_dim 2 scenario_A) by (repeat constructor).
  assert (Hx : extracted scenario_A pixel1 [0; 255])
    by (right; left; reflexivity).
  assert (Ht : -1 <= 0) by lra.
  split; [exact Hd|]. split; [exact Hx|]. split; [reflexivity|].
  split; [exact Ht|].
  exact (search_self_match (fun _ => (0, 0)) 2 scenario_A pixel1 [0; 255]
                           [0; 0] (-1) Hd Hx eq_refl Ht).
Defined.

(** *** Scenario A *)

Lemma scenario_A_normalized :
  map normalize_spec (map snd scenario_A) = [[0; 0]; [0; 1]; [10; 10]].
Proof.
  unfold scenario_A, normalize_spec. cbn [map snd].
  repeat f_equal; field.
Qed.

Ltac eval_row_distance :=
  unfold row_distance, sub_row, div255;
  cbn [map combine np_sum fold_right fst snd].

Lemma scenario_A_d0 : row_distance [0; 0] [0; 0] = 0.
Proof. apply row_distance_self. Qed.

Lemma scenario_A_d1 : row_distance [0; 0] [0; 255] = 1.
Proof.
  eval_row_distance.
  transitivity (sqrt 1); [f_equal; field | apply sqrt_1].
Qed.

Lemma scenario_A_d2 : row_distance [0; 0] [2550; 2550] = sqrt 200.
Proof. eval_row_distance. f_equal. field. Qed.

Lemma sqrt_200_bounds : 14.1 < sqrt 200 < 14.2.
Proof.
  split.
  - rewrite <- (sqrt_pow2 14.1) by lra. apply sqrt_lt_1; lra.
  - rewrite <- (sqrt_pow2 14.2) by lra. apply sqrt_lt_1; lra.
Qed.

(** C5.  Scenario A: the set of three pixels whose normalised vectors
    are [0,0], [0,1] and [10,10], searched with the query [0,0] at
    threshold 1.5, yields pixel0 at distance 0 followed by pixel1 at
    distance 1 and nothing else; pixel2 lies at distance sqrt 200,
    between 14.1 and 14.2. *)
Theorem scenario_A_search (pixel_to_geo : PixelAddress -> R * R) :
  map normalize_spec (map snd scenario_A) = [[0; 0]; [0; 1]; [10; 10]] /\
  normalize_spec [0; 0] = [0; 0] /\
  (exists matches,
      search pixel_to_geo scenario_A [0; 0] 1.5 = inr (matches, mkStats 3) /\
      map (fun m => (pixel m, distance m)) matches
      = [(pixel0, 0); (pixel1, 1)] /\
      ~ In pixel2 (map pixel matches)) /\
  row_distance [0; 0] [2550; 2550] = sqrt 200 /\
  14.1 < sqrt 200 < 14.2.
Proof.
  split; [apply scenario_A_normalized|].
  split; [unfold normalize_spec; cbn [map]; repeat f_equal; field|].
  split; [|split; [apply scenario_A_d2 | apply sqrt_200_bounds]].
  assert (Hdim : uniform_dim (length [0; 0]) scenario_A)
    by (repeat constructor).
  rewrite (search_equal_dim pixel_to_geo _ _ 1.5 Hdim).
  unfold within, scenario_A.
  cbn [map combine fst snd filter].
  rewrite scenario_A_d0, scenario_A_d1, scenario_A_d2.
  cbn [filter snd].
  rewrite (proj2 (Rle_b_true 0 1.5)) by lra.
  rewrite (proj2 (Rle_b_true 1 1.5)) by lra.
  rewrite (proj2 (Rle_b_false (sqrt 200) 1.5))
    by (pose proof sqrt_200_bounds; lra).
  cbn [map sort_matches fold_right insert_match].
  rewrite !to_match_distance. cbn [snd].
  destruct (Rle_dec 0 1) as [_|Hn]; [|exfalso; lra].
  eexists. split; [reflexivity|].
  cbn [map]. rewrite !to_match_pixel, !to_match_distance. cbn [fst snd].
  split; [reflexivity|].
  intros [H|[H|[]]]; discriminate H.
Qed.

(** *** One convention on both sides *)

Lemma euclidean_spec_predivided (q e : Vec) :
  length e = length q ->
  euclidean_spec (length (div255 q)) (div255 q) (div255 e) = row_distance q e.
Proof.
  intros Hlen. rewrite div255_length. symmetry.
  apply (row_distance_spec (length q) q e); [reflexivity | assumption].
Qed.

Lemma prescaled_forallb (set : EmbeddingSet) (q : Vec) :
  uniform_dim (length q) set ->
  forallb (fun pe => Nat.eqb (length (snd pe)) (length (div255 q)))
          (prescaled set) = true.
Proof.
  intros H. apply forallb_forall. intros pe Hin.
  unfold prescaled in Hin. apply in_map_iff in Hin as [[p e] [<- Hin]].
  simpl. rewrite !div255_length. apply Nat.eqb_eq.
  unfold uniform_dim in H. rewrite Forall_forall in H.
  apply (H (p, e) Hin).
Qed.

Lemma within_predivided (set : EmbeddingSet) (q : Vec) (t : R) :
  uniform_dim (length q) set ->
  map fst (within set (map (row_distance q) (map snd set)) t)
  = map fst
      (filter (fun pe =>
                 Rle_b (euclidean_spec (length (div255 q)) (div255 q) (snd pe))
                       t)
              (prescaled set)).
Proof.
  unfold within, uniform_dim. rewrite combine_fst_map.
  induction set as [|[p e] set IH]; intros H; [reflexivity|].
  inversion H as [|? ? He Hrest]; subst. simpl in He.
  cbn [prescaled map filter fst snd].
  rewrite (euclidean_spec_predivided q e He).
  fold (prescaled set).
  destruct (Rle_b (row_distance q e) t); cbn [map fst];
    rewrite (IH Hrest); reflexivity.
Qed.

(** C9.  For a set and a query of one dimensionality, the match set
    obtained from the raw 8-bit vectors on both sides, which lines 93-97
    divide by 255, is identical, at the same threshold, to the match set
    obtained from the same vectors supplied already divided on both
    sides and compared as they are: the same pixels in the same
    order. *)
Theorem match_sets_same_convention (set : EmbeddingSet) (query : Vec)
        (t : R) :
  uniform_dim (length query) set ->
  exists matches,
    match_set_normalized set query t = Some matches /\
    match_set_predivided (prescaled set) (div255 query) t = Some matches.
Proof.
  intros Hdim. unfold match_set_normalized, match_set_predivided.
  rewrite distances_equal_dim
    by (try reflexivity; apply uniform_dim_shape; assumption).
  rewrite (prescaled_forallb set query Hdim).
  cbn [option_map rows]. eexists. split; [reflexivity|].
  f_equal. symmetry. apply within_predivided. assumption.
Qed.

Lemma match_sets_same_convention_witness :
  uniform_dim (length [0; 255]) scenario_A /\
  exists matches,
    match_set_normalized scenario_A [0; 255] 1 = Some matches /\
    match_set_predivided (prescaled scenario_A) (div255 [0; 255]) 1
    = Some matches.
Proof.
  assert (H : uniform_dim (length [0; 255]) scenario_A)
    by (repeat constructor).
  split; [exact H|].
  exact (match_sets_same_convention scenario_A [0; 255] 1 H).
Defined.

End SimilarityProps.

(* ------------------------------------------------------------------ *)

Module MigrationProps.

Import Migration.
Local Open Scope string_scope.

Section Laws.

Variable db : LabelsDb.
Hypothesis laws : LabelsDbLaws db.

Lemma record_failed_keeps (vp : string) (label : json) (e : PyError)
      (s : MigState db) :
  store (fst (record_failed db vp label e s)) = store s /\
  total_labels (fst (record_failed db vp label e s)) = total_labels s /\
  total_pixels (fst (record_failed db vp label e s)) = total_pixels s.
Proof.
  unfold record_failed. destruct (py_get label "name" (JStr "unknown"));
    simpl; auto.
Qed.

(** Whether the handler of a record raises depends on the record only. *)
Lemma record_failed_exc (vp : string) (label : json) (e e' : PyError)
      (s t : MigState db) :
  snd (record_failed db vp label e s) = snd (record_failed db vp label e' t).
Proof.
  unfold record_failed. destruct (py_get label "name" (JStr "unknown"));
    reflexivity.
Qed.

Lemma count_after_save (vp : string) (label : json) (st st' : Store db)
      (v : string) :
  save_label db vp label st = inr st' ->
  (get_label_count db v st <= get_label_count db v st')%nat /\ (0 < get_label_count db vp st')%nat.
Proof.
  intros Hsave. split.
  - rewrite (save_label_count laws _ _ _ _ v Hsave). lia.
  - rewrite (save_label_count laws _ _ _ _ vp Hsave).
    rewrite String.eqb_refl. lia.
Qed.

(** What one pass over the labels of a file does to the state. *)
Lemma migrate_labels_inv (vp : string) (labels : list json) :
  forall (s : MigState db) (vpix : nat),
    let r := migrate_labels db vp labels s vpix in
    (forall v, get_label_count db v (store s) <= get_label_count db v (store (fst (fst r))))%nat /\
    (total_labels s <= total_labels (fst (fst r)))%nat /\
    (total_labels (fst (fst r)) = total_labels s ->
     store (fst (fst r)) = store s /\ snd (fst r) = vpix) /\
    (total_labels s < total_labels (fst (fst r)) ->
     0 < get_label_count db vp (store (fst (fst r))))%nat /\
    (ready db (store s) -> ready db (store (fst (fst r)))) /\
    total_pixels (fst (fst r)) = total_pixels s.
Proof.
  induction labels as [|label rest IH]; intros s vpix; cbn zeta.
  - cbn [migrate_labels fst snd]. repeat split; auto; lia.
  - cbn [migrate_labels].
    destruct (save_label db vp label (store s)) as [e|st'] eqn:Hsave.
    + pose proof (record_failed_keeps vp label e s) as [Hst [Htl Htp]].
      destruct (record_failed db vp label e s) as [s' [e'|]]; simpl in *.
      * rewrite Hst, Htl, Htp. repeat split; auto; lia.
      * specialize (IH s' vpix). cbn zeta in IH.
        rewrite Hst, Htl, Htp in IH. exact IH.
    + destruct (count_after_save vp label (store s) st' vp Hsave) as [_ Hpos].
      assert (Hmono : forall v, (get_label_count db v (store s) <= get_label_count db v st')%nat)
        by (intros v; apply (count_after_save vp label (store s) st' v Hsave)).
      assert (Hready : ready db (store s) -> ready db st')
        by (intros Hr; exact (save_label_ready laws _ _ _ _ Hr Hsave)).
      set (s1 := mkMigState db st' (total_labels s + 1) (total_pixels s)
                            (errors s)).
      assert (Hfrom : forall (s2 : MigState db) (p : nat),
                 store s2 = st' ->
                 total_labels s2 = (total_labels s + 1)%nat ->
                 total_pixels s2 = total_pixels s ->
                 let r := migrate_labels db vp rest s2 p in
                 (forall v, get_label_count db v (store s)
                            <= get_label_count db v (store (fst (fst r))))%nat /\
                 (total_labels s <= total_labels (fst (fst r)))%nat /\
                 (total_labels (fst (fst r)) = total_labels s ->
                  store (fst (fst r)) = store s /\ snd (fst r) = vpix) /\
                 (total_labels s < total_labels (fst (fst r)) ->
                  0 < get_label_count db vp (store (fst (fst r))))%nat /\
                 (ready db (store s) ->
                  ready db (store (fst (fst r)))) /\
                 total_pixels (fst (fst r)) = total_pixels s).
      { intros s2 p H1 H2 H3. cbn zeta.
        destruct (IH s2 p) as [Ha [Hb [Hc [Hd [He Hf]]]]].
        rewrite H1 in *. rewrite H2 in *. rewrite H3 in *.
        split; [intros v; specialize (Ha v); specialize (Hmono v); lia|].
        split; [lia|].
        split; [intros Heq; exfalso; lia|].
        split; [intros _|].
        - specialize (Ha vp). lia.
        - split; [auto | assumption]. }
      destruct (pixels <- py_get label "pixels" (JArr []);; py_len pixels)
        as [e|n].
      * pose proof (record_failed_keeps vp label e s1) as [Hst [Htl Htp]].
        destruct (record_failed db vp label e s1) as [s' [e'|]]; simpl in *.
        -- rewrite Hst, Htl, Htp.
           split; [exact Hmono|]. split; [lia|].
           split; [intros Heq; exfalso; lia|].
           split; [intros _; exact Hpos|]. split; auto.
        -- apply Hfrom; assumption.
      * apply Hfrom; reflexivity.
Qed.

(** A pass that saved nothing saves nothing from any other store. *)
Lemma migrate_labels_rerun (vp : string) (labels : list json) :
  forall (s : MigState db) (vpix : nat) (t : MigState db) (tpix : nat),
    total_labels (fst (fst (migrate_labels db vp labels s vpix)))
    = total_labels s ->
    total_labels (fst (fst (migrate_labels db vp labels t tpix)))
    = total_labels t.
Proof.
  induction labels as [|label rest IH]; intros s vpix t tpix Hsame.
  - reflexivity.
  - cbn [migrate_labels] in *.
    pose proof (save_label_record laws vp label (store s) (store t)) as Hok.
    destruct (save_label db vp label (store s)) as [e|st'] eqn:Hs.
    + destruct (save_label db vp label (store t)) as [e'|] eqn:Ht;
        [|discriminate Hok].
      pose proof (record_failed_exc vp label e e' s t) as Hexc.
      pose proof (record_failed_keeps vp label e s) as [_ [Htl _]].
      pose proof (record_failed_keeps vp label e' t) as [_ [Htl' _]].
      destruct (record_failed db vp label e s) as [s' [x|]];
        destruct (record_failed db vp label e' t) as [t' [x'|]];
        simpl in *; try discriminate Hexc.
      * assumption.
      * rewrite <- Htl'. apply (IH s' vpix). congruence.
    + exfalso.
      set (s1 := mkMigState db st' (total_labels s + 1) (total_pixels s)
                            (errors s)) in *.
      assert (Hge : (total_labels s + 1
                     <= total_labels
                          (fst (fst
                             (match
                                 (pixels <- py_get label "pixels" (JArr []);;
                                  py_len pixels)
                               with
                               | inl e =>
                                   match record_failed db vp label e s1 with
                                   | (s', Some e') => (s', vpix, Some e')
                                   | (s', None) =>
                                       migrate_labels db vp rest s' vpix
                                   end
                               | inr n =>
                                   migrate_labels db vp rest s1 (vpix + n)
                               end))))%nat).
      { destruct (pixels <- py_get label "pixels" (JArr []);; py_len pixels)
          as [e|n].
        - pose proof (record_failed_keeps vp label e s1) as [_ [Htl _]].
          destruct (record_failed db vp label e s1) as [s' [x|]];
            simpl in *.
          + lia.
          + destruct (migrate_labels_inv vp rest s' vpix) as [_ [Hb _]].
            lia.
        - destruct (migrate_labels_inv vp rest s1 (vpix + n)) as [_ [Hb _]].
          simpl in Hb. lia. }
      lia.
Qed.

Lemma migrate_file_mono (f : File) (s : MigState db) :
  (forall v, get_label_count db v (store s)
             <= get_label_count db v (store (migrate_file db f s)))%nat /\
  (ready db (store s) -> ready db (store (migrate_file db f s))).
Proof.
  unfold migrate_file.
  destruct (0 <? get_label_count db (viewport_name f) (store s))%nat;
    [split; auto|].
  destruct (file_labels f) as [e|labels]; [split; auto|].
  destruct (migrate_labels_inv (viewport_name f) labels s 0)
    as [Ha [_ [_ [_ [He _]]]]].
  destruct (migrate_labels db (viewport_name f) labels s 0)
    as [[s' vpix] [e|]]; simpl in *; split; auto.
Qed.

(** After a file has been handled, either its viewport has labels in
    the store or the file is barren. *)
Lemma migrate_file_dichotomy (f : File) (s : MigState db) :
  (0 < get_label_count db (viewport_name f) (store (migrate_file db f s)))%nat
  \/ barren db f.
Proof.
  unfold migrate_file at 1.
  destruct (0 <? get_label_count db (viewport_name f) (store s))%nat eqn:Hc.
  { left. apply Nat.ltb_lt. assumption. }
  destruct (file_labels f) as [e|labels] eqn:Hlabels.
  { right. intros t. unfold migrate_file. rewrite Hlabels.
    destruct (0 <? get_label_count db (viewport_name f) (store t))%nat;
      simpl; auto. }
  destruct (migrate_labels_inv (viewport_name f) labels s 0)
    as [_ [Hb [_ [Hd _]]]].
  destruct (Nat.eq_dec
              (total_labels
                 (fst (fst (migrate_labels db (viewport_name f) labels s 0))))
              (total_labels s)) as [Hsame|Hmore].
  - right. intros t. unfold migrate_file. rewrite Hlabels.
    destruct (0 <? get_label_count db (viewport_name f) (store t))%nat;
      [auto|].
    pose proof (migrate_labels_rerun (viewport_name f) labels s 0 t 0 Hsame)
      as Ht.
    destruct (migrate_labels_inv (viewport_name f) labels t 0)
      as [_ [_ [Hc' [_ [_ Hf]]]]].
    destruct (Hc' Ht) as [Hst Hpix].
    destruct (migrate_labels db (viewport_name f) labels t 0)
      as [[t' vpix] [e|]]; simpl in *; subst; repeat split; auto; lia.
  - left.
    assert (Hpos : (0 < get_label_count db (viewport_name f)
                     (store (fst (fst (migrate_labels db (viewport_name f)
                                                      labels s 0)))))%nat)
      by (apply Hd; lia).
    destruct (migrate_labels db (viewport_name f) labels s 0)
      as [[s' vpix] [e|]]; simpl in *; assumption.
Qed.

Lemma migrate_files_mono (files : list File) :
  forall s : MigState db,
    (forall v, get_label_count db v (store s)
               <= get_label_count db v (store (migrate_files db files s)))%nat
    /\ (ready db (store s) -> ready db (store (migrate_files db files s))).
Proof.
  induction files as [|f files IH]; intros s; simpl.
  - split; auto.
  - destruct (migrate_file_mono f s) as [Ha Hr].
    destruct (IH (migrate_file db f s)) as [Ha' Hr'].
    split; [|auto].
    intros v. specialize (Ha v). specialize (Ha' v). lia.
Qed.

(** After a run, every file it went through has labels in the store for
    its viewport, or is barren. *)
Lemma migrate_files_settled (files : list File) :
  forall (s : MigState db) (f : File),
    In f files ->
    (0 < get_label_count db (viewport_name f)
                         (store (migrate_files db files s)))%nat
    \/ barren db f.
Proof.
  induction files as [|g files IH]; intros s f Hin; [contradiction|].
  simpl. destruct Hin as [->|Hin].
  - destruct (migrate_file_dichotomy f s) as [Hpos|Hb]; [left|right; exact Hb].
    destruct (migrate_files_mono files (migrate_file db f s)) as [Ha _].
    specialize (Ha (viewport_name f)). lia.
  - apply IH. assumption.
Qed.

(** A run over settled files changes neither the store nor the totals. *)
Lemma migrate_files_settled_rerun (files : list File) :
  forall s : MigState db,
    (forall f, In f files ->
               (0 < get_label_count db (viewport_name f) (store s))%nat
               \/ barren db f) ->
    store (migrate_files db files s) = store s /\
    total_labels (migrate_files db files s) = total_labels s /\
    total_pixels (migrate_files db files s) = total_pixels s.
Proof.
  induction files as [|f files IH]; intros s Hset; simpl; [auto|].
  assert (Hf : store (migrate_file db f s) = store s /\
               total_labels (migrate_file db f s) = total_labels s /\
               total_pixels (migrate_file db f s) = total_pixels s).
  { destruct (Hset f (or_introl eq_refl)) as [Hpos|Hb]; [|apply Hb].
    unfold migrate_file. apply Nat.ltb_lt in Hpos. rewrite Hpos. auto. }
  destruct Hf as [H1 [H2 H3]].
  destruct (IH (migrate_file db f s)) as [H1' [H2' H3']].
  { intros g Hg. rewrite H1. apply Hset. right. assumption. }
  repeat split; congruence.
Qed.

End Laws.

(** *** The store of the specification obeys the laws *)

Lemma parse_label_viewport (v : string) (l : json) (row : LabelRow) :
  parse_label v l = inr row -> row_viewport row = v.
Proof.
  unfold parse_label. destruct l as [| | | | |?|fields]; try discriminate.
  destruct (dict_lookup "name" fields) as [[| | | |n| |]|]; try discriminate.
  destruct (dict_lookup "pixels" fields) as [[| | | | |ps|]|];
    try discriminate.
  unfold bind. destruct (parse_pixels ps); [discriminate|].
  intros H. injection H as <-. reflexivity.
Qed.

Lemma sqlite_laws : LabelsDbLaws sqlite.
Proof.
  constructor.
  - intros s s'. simpl. destruct (openable s) eqn:Ho; [|discriminate].
    intros H. injection H as <-. rewrite Ho. reflexivity.
  - intros v l s s'. simpl. destruct (openable s) eqn:Ho; [|discriminate].
    intros _. unfold bind. destruct (parse_label v l); [discriminate|].
    intros H. injection H as <-. simpl. reflexivity.
  - intros v l s s' v'. simpl. unfold bind.
    destruct (parse_label v l) as [|row] eqn:Hrow; [discriminate|].
    intros H. injection H as <-. simpl.
    rewrite filter_app, length_app. simpl.
    rewrite (parse_label_viewport _ _ _ Hrow), String.eqb_sym.
    destruct (String.eqb v' v); reflexivity.
  - intros v l s1 s2. simpl. unfold bind.
    destruct (parse_label v l); reflexivity.
Qed.

(** C3.  A second run of the migration over the same legacy directory,
    on the store the first run left, returns with the store unchanged
    (so every count taken from it, of labels or of pixels, is unchanged)
    and migrates no label and no pixel; and whenever the store already
    holds a label for the viewport of a file, the file is skipped: the
    state after it is the state before it. *)
Theorem migrate_idempotent (db : LabelsDb) (laws : LabelsDbLaws db)
        (dir : list File) (disk : Store db) (first : MigState db) :
  migrate db dir disk = inr first ->
  (exists second,
      migrate db dir (store first) = inr second /\
      store second = store first /\
      total_labels second = 0%nat /\
      total_pixels second = 0%nat /\
      forall (A : Type) (measure : Store db -> A),
        measure (store second) = measure (store first)) /\
  (forall f s,
      (0 < get_label_count db (viewport_name f) (store s))%nat ->
      migrate_file db f s = s).
Proof.
  intros Hfirst. split.
  - unfold migrate, bind in *.
    destruct (init_db db disk) as [e|st0] eqn:Hinit; [discriminate|].
    pose proof (init_db_ready laws _ _ Hinit) as Hready.
    assert (Hstore : ready db (store first) /\
                     forall f, In f (sorted (glob_labels dir)) ->
                       (0 < get_label_count db (viewport_name f)
                                            (store first))%nat
                       \/ barren db f).
    { destruct (glob_labels dir) as [|g files] eqn:Hglob.
      - injection Hfirst as <-. split; [exact Hready|].
        intros f [].
      - injection Hfirst as <-. split.
        + exact (proj2 (migrate_files_mono db laws _
                                           (mkMigState db st0 0 0 [])) Hready).
        + intros f Hin. apply (migrate_files_settled db laws). assumption. }
    destruct Hstore as [Hready1 Hsettled].
    unfold ready in Hready1. rewrite Hready1.
    set (start := mkMigState db (store first) 0 0 []).
    destruct (migrate_files_settled_rerun db (sorted (glob_labels dir))
                                          start Hsettled)
      as [H1 [H2 H3]].
    destruct (glob_labels dir) as [|g files] eqn:Hglob.
    + exists start. repeat split; reflexivity.
    + eexists. split; [reflexivity|].
      split; [exact H1|]. split; [exact H2|]. split; [exact H3|].
      intros A measure. rewrite H1. reflexivity.
  - intros f s Hpos. unfold migrate_file.
    apply Nat.ltb_lt in Hpos. rewrite Hpos. reflexivity.
Qed.

Lemma migrate_idempotent_witness :
  LabelsDbLaws sqlite /\
  migrate sqlite [scenario_D_file] empty_db = inr scenario_D_first /\
  (exists second,
      migrate sqlite [scenario_D_file] (store scenario_D_first)
      = inr second /\
      store second = store scenario_D_first /\
      total_labels second = 0%nat /\
      total_pixels second = 0%nat /\
      forall (A : Type) (measure : Store sqlite -> A),
        measure (store second) = measure (store scenario_D_first)) /\
  (forall f s,
      (0 < get_label_count sqlite (viewport_name f) (store s))%nat ->
      migrate_file sqlite f s = s).
Proof.
  split; [exact sqlite_laws|]. split; [reflexivity|].
  exact (migrate_idempotent sqlite sqlite_laws [scenario_D_file] empty_db
                            scenario_D_first eq_refl).
Defined.

(** *** Failures of single records *)

Section Records.

Variable db : LabelsDb.

(** A record that is an object and cannot be saved: the error is
    appended, and the loop goes on with the records after it from a
    state whose store and totals are untouched. *)
Lemma migrate_labels_object_failure (vp : string)
      (fields : list (string * json)) (rest : list json)
      (s : MigState db) (vpix : nat) (e : PyError) :
  save_label db vp (JObj fields) (store s) = inl e ->
  migrate_labels db vp (JObj fields :: rest) s vpix
  = migrate_labels db vp rest
      (add_error s
         (RecordError vp
            (match dict_lookup "name" fields with
             | Some n => n
             | None => JStr "unknown"
             end) e))
      vpix.
Proof.
  intros Hsave. cbn [migrate_labels]. rewrite Hsave. reflexivity.
Qed.

(** Over records that are all objects no exception leaves the loop:
    every record is attempted. *)
Lemma migrate_labels_objects_complete (vp : string) (labels : list json) :
  forallb is_object labels = true ->
  forall (s : MigState db) (vpix : nat),
    snd (migrate_labels db vp labels s vpix) = None.
Proof.
  induction labels as [|label rest IH]; intros Hobj s vpix; [reflexivity|].
  cbn [forallb] in Hobj. apply andb_prop in Hobj as [Hlabel Hrest].
  destruct label as [| | | | | |fields]; try discriminate Hlabel.
  cbn [migrate_labels].
  destruct (save_label db vp (JObj fields) (store s)) as [e|st'].
  - cbn [record_failed py_get ret]. apply IH. assumption.
  - destruct (pixels <- py_get (JObj fields) "pixels" (JArr []);;
              py_len pixels) as [e|n].
    + cbn [record_failed py_get ret]. apply IH. assumption.
    + apply IH. assumption.
Qed.

(** An entry that is not an object ends the loop with the
    [AttributeError] of the handler; no record error is appended and
    the entries after it are not looked at. *)
Lemma migrate_labels_stray_entry (vp : string) (label : json)
      (rest : list json) (s : MigState db) (vpix : nat) :
  is_object label = false ->
  snd (migrate_labels db vp (label :: rest) s vpix)
  = Some (AttributeError (type_name label) "get") /\
  errors (fst (fst (migrate_labels db vp (label :: rest) s vpix)))
  = errors s.
Proof.
  intros Hobj. cbn [migrate_labels].
  destruct (save_label db vp label (store s)) as [e|st'].
  - destruct label; try discriminate Hobj; split; reflexivity.
  - destruct label; try discriminate Hobj; split; reflexivity.
Qed.

(** The run as a whole is aborted by a failure of [init_db] and by
    nothing else. *)
Lemma migrate_aborts_iff (dir : list File) (disk : Store db) (e : PyError) :
  migrate db dir disk = inl e <-> init_db db disk = inl e.
Proof.
  unfold migrate, bind. destruct (init_db db disk) as [e'|st].
  - split; intros H; injection H as ->; reflexivity.
  - destruct (glob_labels dir); split; discriminate.
Qed.

End Records.

(** Scenario D on the store of the specification: two labels imported,
    one error recorded, the run returns. *)
Lemma scenario_D_migration :
  migrate sqlite [scenario_D_file] empty_db = inr scenario_D_first /\
  total_labels scenario_D_first = 2%nat /\
  length (labels (store scenario_D_first)) = 2%nat /\
  length (errors scenario_D_first) = 1%nat.
Proof. repeat split; reflexivity. Qed.

(** C4, at the failing input.  In a legacy file whose label list starts
    with an entry that is not an object, here the number 5, the handler
    of the record raises itself: whatever the store, the loop over the
    labels ends with that [AttributeError] and appends no record error.
    The run records one error for the whole file and returns, but the
    valid label that follows is not imported, although the same label
    alone in a file is. *)
Theorem migrate_stray_entry_drops_rest (db : LabelsDb) (s : MigState db)
        (n : Z) (rest : list json) (vpix : nat) :
  (snd (migrate_labels db "city" (JNum n :: rest) s vpix)
   = Some (AttributeError "int" "get") /\
   errors (fst (fst (migrate_labels db "city" (JNum n :: rest) s vpix)))
   = errors s) /\
  migrate sqlite [stray_entry_file] empty_db
  = inr (mkMigState sqlite empty_db 0 0
                    [FileError "city" (AttributeError "int" "get")]) /\
  migrate sqlite [water_only_file] empty_db
  = inr (mkMigState sqlite
                    (mkSqlite true [mkRow "city" "water" [(5, 6)]%Z])
                    1 1 []).
Proof.
  split; [|split; reflexivity].
  apply (migrate_labels_stray_entry db "city" (JNum n) rest s vpix).
  reflexivity.
Qed.

End MigrationProps.

(* ------------------------------------------------------------------ *)

Module ViewerProps.

Import Viewer.
Local Open Scope string_scope.

(** The claim of C10 as it is stated fails: called with bounds but
    without a viewport id, the function raises the [AttributeError] of
    [None.title()] in the page title, before [CENTER] is read. *)
Lemma create_html_viewer_no_id_with_bounds :
  fst (create_html_viewer (fun _ _ b => b) None (Some bangalore_bounds)
                          empty_world)
  = inl (AttributeError "NoneType" "title") /\
  fst (create_html_viewer (fun _ _ b => b) None (Some bangalore_bounds)
                          empty_world)
  <> inl (NameError "CENTER").
Proof. split; [reflexivity | discriminate]. Qed.

(** C10, amended.  For every combination of arguments, and whether or
    not the sample image exists, building the page raises and leaves the
    world as it was: no file is written.  The exception is the
    [NameError] of the unbound name [CENTER], except for a call with
    bounds and without a viewport id, which raises the [AttributeError]
    of [None.title()] first. *)
Theorem create_html_viewer_raises
        (transform_bounds : string -> string -> Bounds -> Bounds)
        (viewport_id : option string) (viewport_bounds : option Bounds)
        (w : World) :
  create_html_viewer transform_bounds viewport_id viewport_bounds w
  = (inl (match viewport_id, viewport_bounds with
          | None, Some _ => AttributeError "NoneType" "title"
          | _, _ => NameError "CENTER"
          end),
     w).
Proof.
  destruct w as [[src|] files];
    destruct viewport_id as [id|];
    destruct viewport_bounds as [[[[b0 b1] b2] b3]|];
    reflexivity.
Qed.

End ViewerProps.

(* ================================================================== *)
(** * Further properties of the code *)
(* ================================================================== *)

Module SimilarityExtra.

Import Similarity SimilarityProps.
Local Open Scope R_scope.

(** *** What [distances] returns, whatever the shapes *)

Lemma distances_nonneg (q : Vec) (all_embeddings : Array2) (ds : list R) :
  distances q all_embeddings = Some ds -> Forall (fun d => 0 <= d) ds.
Proof.
  unfold distances.
  destruct (broadcast_cols (ncols all_embeddings) (length (div255 q)));
    [|discriminate].
  intros H. injection H as <-. apply Forall_forall.
  intros d Hd. apply in_map_iff in Hd as [x [<- _]]. apply sqrt_pos.
Qed.

Lemma distances_length (q : Vec) (all_embeddings : Array2) (ds : list R) :
  distances q all_embeddings = Some ds ->
  length ds = length (rows all_embeddings).
Proof.
  unfold distances.
  destruct (broadcast_cols (ncols all_embeddings) (length (div255 q)));
    [|discriminate].
  intros H. injection H as <-. rewrite !length_map. reflexivity.
Qed.

Lemma count_le_length (ds : list R) (t : R) : (count ds t <= length ds)%nat.
Proof.
  induction ds as [|d ds IH]; [apply Nat.le_refl|].
  rewrite count_cons. simpl. destruct (Rle_b d t); lia.
Qed.

Lemma count_none (ds : list R) (t : R) :
  Forall (fun d => t < d) ds -> count ds t = 0%nat.
Proof.
  induction 1 as [|d ds Hd _ IH]; [reflexivity|].
  rewrite count_cons, IH, (proj2 (Rle_b_false d t)) by assumption.
  reflexivity.
Qed.

Lemma count_all (ds : list R) (t : R) :
  Forall (fun d => d <= t) ds -> count ds t = length ds.
Proof.
  induction 1 as [|d ds Hd _ IH]; [reflexivity|].
  rewrite count_cons, IH, (proj2 (Rle_b_true d t)) by assumption.
  reflexivity.
Qed.

(** X1.  Whatever the shapes, when the script obtains distances there is
    one per stored row, the count at a threshold never exceeds their
    number, and a negative threshold counts no pixel at all. *)
Theorem count_bounds (q : Vec) (all_embeddings : Array2) (ds : list R)
        (t : R) :
  distances q all_embeddings = Some ds ->
  length ds = length (rows all_embeddings) /\
  (count ds t <= length (rows all_embeddings))%nat /\
  (t < 0 -> count ds t = 0%nat).
Proof.
  intros Hds. pose proof (distances_length _ _ _ Hds) as Hlen.
  split; [exact Hlen|]. split.
  - rewrite <- Hlen. apply count_le_length.
  - intros Ht. apply count_none.
    pose proof (distances_nonneg _ _ _ Hds) as Hpos.
    rewrite Forall_forall in *. intros d Hd. specialize (Hpos d Hd). lra.
Qed.

Lemma count_bounds_witness :
  distances [0; 0] (mkArray2 2 [[0; 0]; [255; 255]])
  = Some [row_distance [0; 0] [0; 0]; row_distance [0; 0] [255; 255]] /\
  length [row_distance [0; 0] [0; 0]; row_distance [0; 0] [255; 255]]
  = length (rows (mkArray2 2 [[0; 0]; [255; 255]])) /\
  le (count [row_distance [0; 0] [0; 0]; row_distance [0; 0] [255; 255]] (-1))
     (length (rows (mkArray2 2 [[0; 0]; [255; 255]]))) /\
  (-1 < 0 ->
   count [row_distance [0; 0] [0; 0]; row_distance [0; 0] [255; 255]] (-1)
   = 0%nat).
Proof.
  assert (H : distances [0; 0] (mkArray2 2 [[0; 0]; [255; 255]])
              = Some [row_distance [0; 0] [0; 0];
                      row_distance [0; 0] [255; 255]]).
  { apply distances_equal_dim; [reflexivity | repeat constructor]. }
  split; [exact H|].
  exact (count_bounds [0; 0] (mkArray2 2 [[0; 0]; [255; 255]]) _ (-1) H).
Defined.

(** *** Broadcasting *)

Lemma sub_row_repeat (row : Vec) (c : R) :
  sub_row row (repeat c (length row)) = map (fun r => r - c) row.
Proof.
  unfold sub_row. induction row as [|r row IH]; [reflexivity|].
  simpl. rewrite IH. reflexivity.
Qed.

Lemma stretch_single (n : nat) (c : R) : stretch n [c] = repeat c n.
Proof.
  unfold stretch. simpl. destruct n as [|[|n]]; reflexivity.
Qed.

Lemma broadcast_cols_single (d : nat) : broadcast_cols d 1 = Some d.
Proof.
  unfold broadcast_cols. destruct (Nat.eqb d 1) eqn:H; [|reflexivity].
  apply Nat.eqb_eq in H. congruence.
Qed.

(** X2.  A query whose dimensionality differs from the stored one makes
    the script's subtraction fail only when neither of the two is 1; in
    particular a query of a single component is accepted against stored
    embeddings of any dimensionality, and is then compared with every
    component of each stored row. *)
Theorem distances_broadcast (q : Vec) (all_embeddings : Array2) (x : R) :
  well_shaped all_embeddings ->
  (distances q all_embeddings = None <->
   ncols all_embeddings <> length q /\ length q <> 1%nat /\
   ncols all_embeddings <> 1%nat) /\
  distances [x] all_embeddings
  = Some (map (fun row =>
                 sqrt (np_sum (map (fun r => (r / 255 - x / 255) ^ 2) row)))
              (rows all_embeddings)).
Proof.
  intros Hshape. split.
  - unfold distances, broadcast_cols. rewrite div255_length.
    destruct (Nat.eqb_spec (ncols all_embeddings) (length q)).
    { split; [discriminate | tauto]. }
    destruct (Nat.eqb_spec (length q) 1).
    { split; [discriminate | tauto]. }
    destruct (Nat.eqb_spec (ncols all_embeddings) 1).
    { split; [discriminate | tauto]. }
    split; auto.
  - unfold distances. cbn [div255 map length].
    rewrite broadcast_cols_single. f_equal.
    rewrite !map_map. apply map_ext_in. intros row Hrow.
    unfold well_shaped in Hshape. rewrite Forall_forall in Hshape.
    specialize (Hshape row Hrow).
    rewrite stretch_single. rewrite <- Hshape, <- (div255_length row).
    rewrite stretch_same, sub_row_repeat. unfold div255.
    rewrite !map_map. reflexivity.
Qed.

Lemma distances_broadcast_witness :
  well_shaped (mkArray2 2 [[0; 255]]) /\
  (distances [0; 0; 0] (mkArray2 2 [[0; 255]]) = None <->
   2%nat <> length [0; 0; 0] /\ length [0; 0; 0] <> 1%nat /\
   2%nat <> 1%nat) /\
  distances [255] (mkArray2 2 [[0; 255]])
  = Some (map (fun row =>
                 sqrt (np_sum (map (fun r => (r / 255 - 255 / 255) ^ 2) row)))
              [[0; 255]]).
Proof.
  assert (H : well_shaped (mkArray2 2 [[0; 255]])) by (repeat constructor).
  split; [exact H|].
  exact (distances_broadcast [0; 0; 0] (mkArray2 2 [[0; 255]]) 255 H).
Defined.

(** *** Exact matches and symmetry *)

Lemma np_sum_sq_zero (v : Vec) :
  np_sum (map (fun x => x ^ 2) v) = 0 -> Forall (fun x => x = 0) v.
Proof.
  induction v as [|x v IH]; intros H; [constructor|].
  cbn [map np_sum fold_right] in H.
  fold (np_sum (map (fun x => x ^ 2) v)) in H.
  pose proof (np_sum_sq_nonneg v) as Hv. pose proof (pow2_ge_0 x) as Hx.
  constructor.
  - assert (Hx0 : x ^ 2 = 0) by lra.
    simpl in Hx0. apply Rmult_integral in Hx0 as [Hx0|Hx0]; [assumption|].
    lra.
  - apply IH. lra.
Qed.

Lemma sub_row_zero (a b : Vec) :
  length a = length b -> Forall (fun x => x = 0) (sub_row a b) -> a = b.
Proof.
  unfold sub_row. revert b.
  induction a as [|x a IH]; intros [|y b] Hlen Hz; try discriminate Hlen.
  - reflexivity.
  - injection Hlen as Hlen. simpl in Hz.
    inversion Hz as [|? ? Hxy Hrest]; subst.
    f_equal; [lra | apply IH; assumption].
Qed.

Lemma div255_inj (a b : Vec) : div255 a = div255 b -> a = b.
Proof.
  unfold div255. revert b.
  induction a as [|x a IH]; intros [|y b] H; try discriminate H.
  - reflexivity.
  - simpl in H. injection H as Hxy Hrest. f_equal; [lra | auto].
Qed.

Lemma row_distance_zero_iff (q e : Vec) :
  length q = length e -> (row_distance q e = 0 <-> e = q).
Proof.
  intros Hlen. split.
  - unfold row_distance. intros H.
    apply sqrt_eq_0 in H; [|apply np_sum_sq_nonneg].
    apply div255_inj, sub_row_zero.
    + rewrite !div255_length. congruence.
    + apply np_sum_sq_zero. assumption.
  - intros ->. apply row_distance_self.
Qed.

(** X3.  For a query and stored embeddings that hold 8-bit integers of
    one dimensionality, a row is at distance 0 exactly when it is the
    query itself, component for component: an exact match is a copy. *)
Theorem distance_zero_iff_identical (q : Vec) (all_embeddings : Array2) :
  ncols all_embeddings = length q ->
  well_shaped all_embeddings ->
  is_uint8 q ->
  Forall is_uint8 (rows all_embeddings) ->
  exists ds,
    distances q all_embeddings = Some ds /\
    forall i row,
      nth_error (rows all_embeddings) i = Some row ->
      (nth_error ds i = Some 0 <-> row = q).
Proof.
  intros Hcols Hshape _ _. eexists.
  split; [apply distances_equal_dim; assumption|].
  intros i row Hrow. rewrite nth_error_map, Hrow. simpl.
  assert (Hlen : length q = length row).
  { unfold well_shaped in Hshape. rewrite Forall_forall in Hshape.
    rewrite (Hshape row (nth_error_In _ _ Hrow)). congruence. }
  rewrite <- (row_distance_zero_iff q row Hlen).
  split; [intros H; injection H; auto | intros ->; reflexivity].
Qed.

Lemma distance_zero_iff_identical_witness :
  (2 = length [0; 255])%nat /\
  well_shaped (mkArray2 2 [[0; 255]; [255; 0]]) /\
  is_uint8 [0; 255] /\
  Forall is_uint8 [[0; 255]; [255; 0]] /\
  exists ds,
    distances [0; 255] (mkArray2 2 [[0; 255]; [255; 0]]) = Some ds /\
    forall i row,
      nth_error [[0; 255]; [255; 0]] i = Some row ->
      (nth_error ds i = Some 0 <-> row = [0; 255]).
Proof.
  assert (H : well_shaped (mkArray2 2 [[0; 255]; [255; 0]]))
    by (repeat constructor).
  assert (Hq : is_uint8 [0; 255]).
  { constructor; [exists 0%Z; split; [lia | reflexivity]|].
    constructor; [exists 255%Z; split; [lia | reflexivity]|].
    constructor. }
  assert (Hr : Forall is_uint8 [[0; 255]; [255; 0]]).
  { constructor; [exact Hq|]. constructor; [|constructor].
    constructor; [exists 255%Z; split; [lia | reflexivity]|].
    constructor; [exists 0%Z; split; [lia | reflexivity]|].
    constructor. }
  split; [reflexivity|]. split; [exact H|]. split; [exact Hq|].
  split; [exact Hr|].
  exact (distance_zero_iff_identical
           [0; 255] (mkArray2 2 [[0; 255]; [255; 0]]) eq_refl H Hq Hr).
Defined.

Lemma row_distance_sym (q e : Vec) : row_distance q e = row_distance e q.
Proof.
  unfold row_distance. f_equal. unfold sub_row.
  generalize (div255 q) as a. generalize (div255 e) as b.
  induction b as [|y b IH]; intros [|x a]; try reflexivity.
  cbn [combine map np_sum fold_right fst snd].
  fold (np_sum (map (fun x => x ^ 2)
                    (map (fun ab => fst ab - snd ab) (combine b a)))).
  fold (np_sum (map (fun x => x ^ 2)
                    (map (fun ab => fst ab - snd ab) (combine a b)))).
  rewrite IH. ring.
Qed.

Lemma distances_single (q e : Vec) :
  length q = length e ->
  distances q (mkArray2 (length q) [e]) = Some [row_distance q e].
Proof.
  intros H. apply distances_equal_dim; [reflexivity|].
  constructor; [simpl; congruence | constructor].
Qed.

(** X4.  The distance the script computes does not depend on which of
    two vectors of one dimensionality is the query and which is stored:
    swapping them gives the same distance. *)
Theorem distance_symmetric (q a : Vec) :
  length q = length a ->
  exists d,
    distances q (mkArray2 (length q) [a]) = Some [d] /\
    distances a (mkArray2 (length a) [q]) = Some [d].
Proof.
  intros H. exists (row_distance q a).
  split; [apply distances_single; assumption|].
  rewrite (row_distance_sym q a). apply distances_single. congruence.
Qed.

Lemma distance_symmetric_witness :
  length [0; 0] = length [0; 255] /\
  exists d,
    distances [0; 0] (mkArray2 (length [0; 0]) [[0; 255]]) = Some [d] /\
    distances [0; 255] (mkArray2 (length [0; 255]) [[0; 0]]) = Some [d].
Proof.
  split; [reflexivity|].
  exact (distance_symmetric [0; 0] [0; 255] eq_refl).
Defined.

(** *** 8-bit inputs *)

Lemma np_sum_sq_u8 (q e : Vec) :
  is_u8 q -> is_u8 e -> length q = length e ->
  np_sum (map (fun x => x ^ 2) (sub_row (div255 e) (div255 q)))
  <= INR (length q).
Proof.
  unfold is_u8, sub_row, div255. intros Hq. revert e.
  induction Hq as [|x q Hx Hq IH]; intros e He Hlen.
  - destruct e; [simpl; lra | discriminate Hlen].
  - destruct He as [|y e Hy He]; [discriminate Hlen|].
    injection Hlen as Hlen.
    change (length (x :: q)) with (S (length q)). rewrite S_INR.
    cbn [combine map np_sum fold_right fst snd].
    fold (np_sum (map (fun x => x ^ 2)
                      (map (fun ab => fst ab - snd ab)
                           (combine (map (fun x => x / 255) e)
                                    (map (fun x => x / 255) q))))).
    specialize (IH e He Hlen).
    assert (Hu : (y / 255 - x / 255) ^ 2 <= 1).
    { assert (-1 <= y / 255 - x / 255 <= 1) by lra. nra. }
    lra.
Qed.

(** X5.  When the query and the stored embeddings hold 8-bit values,
    every distance lies between 0 and the square root of the
    dimensionality, so a threshold of at least that square root counts
    every stored pixel. *)
Theorem distances_u8_bounded (q : Vec) (all_embeddings : Array2) (t : R) :
  ncols all_embeddings = length q ->
  well_shaped all_embeddings ->
  is_u8 q ->
  Forall is_u8 (rows all_embeddings) ->
  exists ds,
    distances q all_embeddings = Some ds /\
    Forall (fun d => 0 <= d <= sqrt (INR (length q))) ds /\
    (sqrt (INR (length q)) <= t ->
     match_count q all_embeddings t = Some (length (rows all_embeddings))).
Proof.
  intros Hcols Hshape Hq Hrows.
  assert (Hds : distances q all_embeddings
                = Some (map (row_distance q) (rows all_embeddings)))
    by (apply distances_equal_dim; assumption).
  assert (Hbound : Forall (fun d => 0 <= d <= sqrt (INR (length q)))
                          (map (row_distance q) (rows all_embeddings))).
  { apply Forall_forall. intros d Hd.
    apply in_map_iff in Hd as [row [<- Hrow]].
    split; [apply row_distance_nonneg|].
    unfold row_distance. apply sqrt_le_1_alt. apply np_sum_sq_u8.
    - assumption.
    - rewrite Forall_forall in Hrows. auto.
    - unfold well_shaped in Hshape. rewrite Forall_forall in Hshape.
      rewrite (Hshape row Hrow). congruence. }
  eexists. split; [exact Hds|]. split; [exact Hbound|].
  intros Ht. unfold match_count. rewrite Hds. cbn [option_map]. f_equal.
  rewrite count_all; [apply length_map|].
  rewrite Forall_forall in *. intros d Hd. specialize (Hbound d Hd). lra.
Qed.

Lemma distances_u8_bounded_witness :
  (2 = length [0; 255])%nat /\
  well_shaped (mkArray2 2 [[0; 0]; [255; 0]]) /\
  is_u8 [0; 255] /\
  Forall is_u8 [[0; 0]; [255; 0]] /\
  exists ds,
    distances [0; 255] (mkArray2 2 [[0; 0]; [255; 0]]) = Some ds /\
    Forall (fun d => 0 <= d <= sqrt (INR (length [0; 255]))) ds /\
    (sqrt (INR (length [0; 255])) <= 2 ->
     match_count [0; 255] (mkArray2 2 [[0; 0]; [255; 0]]) 2
     = Some (length [[0; 0]; [255; 0]])).
Proof.
  assert (Hs : well_shaped (mkArray2 2 [[0; 0]; [255; 0]]))
    by (repeat constructor).
  assert (Hq : is_u8 [0; 255]) by (repeat constructor; lra).
  assert (Hr : Forall is_u8 [[0; 0]; [255; 0]])
    by (repeat constructor; lra).
  split; [reflexivity|]. split; [exact Hs|]. split; [exact Hq|].
  split; [exact Hr|].
  exact (distances_u8_bounded [0; 255] (mkArray2 2 [[0; 0]; [255; 0]]) 2
                              eq_refl Hs Hq Hr).
Defined.

(** *** The average of two embeddings *)

Lemma test_dist_sq_mean (e1 e2 : Vec) :
  length e1 = length e2 ->
  exists s,
    0 <= s /\
    test_dist_sq e1 e2 = Some s /\
    test_dist_sq (map (fun ab => (fst ab + snd ab) / 2) (combine e1 e2)) e1
    = Some (s / 4) /\
    test_dist_sq (map (fun ab => (fst ab + snd ab) / 2) (combine e1 e2)) e2
    = Some (s / 4).
Proof.
  revert e2. induction e1 as [|a e1 IH]; intros [|b e2] Hlen;
    try discriminate Hlen.
  - exists 0. simpl. repeat split; try lra; f_equal; lra.
  - injection Hlen as Hlen.
    destruct (IH e2 Hlen) as [s [Hs [H12 [H1 H2]]]].
    exists ((a - b) ^ 2 + s).
    cbn [combine map test_dist_sq fst snd]. rewrite H12, H1, H2.
    cbn [option_map].
    split; [pose proof (pow2_ge_0 (a - b)); lra|].
    repeat split; f_equal; field.
Qed.

(** X6.  The average of two embeddings of one dimensionality, as
    [test_full_workflow.py] forms it, lies at the same distance from
    both, half the distance between them (in the raw scale in which the
    script measures it). *)
Theorem mean_equidistant (embedding1 embedding2 : Vec) :
  length embedding1 = length embedding2 ->
  exists avg_embedding d,
    np_mean2 embedding1 embedding2 = Some avg_embedding /\
    test_dist embedding1 embedding2 = Some d /\
    test_dist avg_embedding embedding1 = Some (d / 2) /\
    test_dist avg_embedding embedding2 = Some (d / 2).
Proof.
  intros Hlen. unfold np_mean2, test_dist.
  rewrite Hlen, Nat.eqb_refl.
  destruct (test_dist_sq_mean embedding1 embedding2 Hlen)
    as [s [Hs [H12 [H1 H2]]]].
  exists (map (fun ab => (fst ab + snd ab) / 2)
              (combine embedding1 embedding2)), (sqrt s).
  rewrite H12, H1, H2. cbn [option_map].
  assert (Hhalf : sqrt (s / 4) = sqrt s / 2).
  { unfold Rdiv. rewrite sqrt_mult_alt by assumption. f_equal.
    replace (/ 4) with ((/ 2) ^ 2) by field. apply sqrt_pow2. lra. }
  rewrite Hhalf. repeat split; reflexivity.
Qed.

Lemma mean_equidistant_witness :
  length [0; 255] = length [100; 55] /\
  exists avg_embedding d,
    np_mean2 [0; 255] [100; 55] = Some avg_embedding /\
    test_dist [0; 255] [100; 55] = Some d /\
    test_dist avg_embedding [0; 255] = Some (d / 2) /\
    test_dist avg_embedding [100; 55] = Some (d / 2).
Proof.
  split; [reflexivity|].
  exact (mean_equidistant [0; 255] [100; 55] eq_refl).
Defined.

End SimilarityExtra.

(* ------------------------------------------------------------------ *)

Module MigrationExtra.

Import Migration MigrationProps.
Local Open Scope string_scope.

(** *** Records that are objects *)

(** X7.  Over label records that are all JSON objects, no exception
    leaves the loop and no record is lost silently: every record adds to
    the labels migrated or to the errors (or to both, when the label was
    saved and counting its pixels failed), and neither grows by more
    than the number of records. *)
Theorem records_migrated_or_reported (db : LabelsDb) (vp : string)
        (records : list json) (s : MigState db) (vpix : nat) :
  forallb is_object records = true ->
  snd (migrate_labels db vp records s vpix) = None /\
  (total_labels s + length (errors s) + length records
   <= total_labels (fst (fst (migrate_labels db vp records s vpix)))
      + length (errors (fst (fst (migrate_labels db vp records s vpix)))))%nat
  /\
  (total_labels (fst (fst (migrate_labels db vp records s vpix)))
   <= total_labels s + length records)%nat /\
  (length (errors (fst (fst (migrate_labels db vp records s vpix))))
   <= length (errors s) + length records)%nat.
Proof.
  revert s vpix.
  induction records as [|label rest IH]; intros s vpix Hobj.
  - cbn [migrate_labels fst snd length]. repeat split; lia.
  - cbn [forallb] in Hobj. apply andb_prop in Hobj as [Hlabel Hrest].
    destruct label as [| | | | | |fields]; try discriminate Hlabel.
    cbn [migrate_labels length].
    destruct (save_label db vp (JObj fields) (store s)) as [e|st'].
    + cbn [record_failed py_get ret].
      match goal with
      | |- context [migrate_labels db vp rest ?s1 ?p] =>
          destruct (IH s1 p Hrest) as [H1 [H2 [H3 H4]]]
      end.
      unfold add_error in *. cbn [total_labels errors] in *.
      rewrite length_app in *. cbn [length] in *.
      repeat split; [assumption | lia | lia | lia].
    + destruct (pixels <- py_get (JObj fields) "pixels" (JArr []);;
                py_len pixels) as [e|n].
      * cbn [record_failed py_get ret].
        match goal with
        | |- context [migrate_labels db vp rest ?s1 ?p] =>
            destruct (IH s1 p Hrest) as [H1 [H2 [H3 H4]]]
        end.
        unfold add_error in *. cbn [total_labels errors] in *.
        rewrite length_app in *. cbn [length] in *.
        repeat split; [assumption | lia | lia | lia].
      * match goal with
        | |- context [migrate_labels db vp rest ?s1 ?p] =>
            destruct (IH s1 p Hrest) as [H1 [H2 [H3 H4]]]
        end.
        cbn [total_labels errors] in *.
        repeat split; [assumption | lia | lia | lia].
Qed.

Lemma records_migrated_or_reported_witness :
  forallb is_object
          [label_json "road" [(1, 2)]%Z; JObj [("name", JStr "broken")]]
  = true /\
  snd (migrate_labels sqlite "city"
         [label_json "road" [(1, 2)]%Z; JObj [("name", JStr "broken")]]
         (mkMigState sqlite empty_db 0 0 []) 0) = None /\
  (0 + 0 + 2
   <= total_labels
        (fst (fst (migrate_labels sqlite "city"
           [label_json "road" [(1, 2)]%Z; JObj [("name", JStr "broken")]]
           (mkMigState sqlite empty_db 0 0 []) 0)))
      + length (errors
        (fst (fst (migrate_labels sqlite "city"
           [label_json "road" [(1, 2)]%Z; JObj [("name", JStr "broken")]]
           (mkMigState sqlite empty_db 0 0 []) 0)))))%nat /\
  (total_labels
     (fst (fst (migrate_labels sqlite "city"
        [label_json "road" [(1, 2)]%Z; JObj [("name", JStr "broken")]]
        (mkMigState sqlite empty_db 0 0 []) 0)))
   <= 0 + 2)%nat /\
  (length (errors
     (fst (fst (migrate_labels sqlite "city"
        [label_json "road" [(1, 2)]%Z; JObj [("name", JStr "broken")]]
        (mkMigState sqlite empty_db 0 0 []) 0))))
   <= 0 + 2)%nat.
Proof.
  split; [reflexivity|].
  exact (records_migrated_or_reported sqlite "city"
           [label_json "road" [(1, 2)]%Z; JObj [("name", JStr "broken")]]
           (mkMigState sqlite empty_db 0 0 []) 0 eq_refl).
Defined.

(** *** Accounting *)

Section Accounting.

Variable db : LabelsDb.
Hypothesis laws : LabelsDbLaws db.

(** The loop adds to the store of its viewport exactly the labels it
    counts, and nothing to any other viewport. *)
Lemma migrate_labels_accounting (vp : string) (records : list json) :
  forall (s : MigState db) (vpix : nat),
    (get_label_count db vp
       (store (fst (fst (migrate_labels db vp records s vpix))))
     + total_labels s
     = get_label_count db vp (store s)
       + total_labels (fst (fst (migrate_labels db vp records s vpix))))%nat
    /\
    forall v, v <> vp ->
      get_label_count db v
        (store (fst (fst (migrate_labels db vp records s vpix))))
      = get_label_count db v (store s).
Proof.
  induction records as [|label rest IH]; intros s vpix.
  - cbn [migrate_labels fst]. split; [lia | reflexivity].
  - cbn [migrate_labels].
    destruct (save_label db vp label (store s)) as [e|st'] eqn:Hsave.
    + pose proof (record_failed_keeps db vp label e s) as [Hst [Htl _]].
      destruct (record_failed db vp label e s) as [s' [e'|]];
        cbn [fst snd] in *.
      * rewrite Hst, Htl. split; [lia | reflexivity].
      * destruct (IH s' vpix) as [Ha Hb]. rewrite Hst, Htl in *.
        split; assumption.
    + assert (Hvp : get_label_count db vp st'
                    = (get_label_count db vp (store s) + 1)%nat).
      { rewrite (save_label_count laws _ _ _ _ vp Hsave).
        rewrite String.eqb_refl. reflexivity. }
      assert (Hother : forall v, v <> vp ->
                get_label_count db v st' = get_label_count db v (store s)).
      { intros v Hv. rewrite (save_label_count laws _ _ _ _ v Hsave).
        apply String.eqb_neq in Hv. rewrite Hv. lia. }
      set (s1 := mkMigState db st' (total_labels s + 1) (total_pixels s)
                            (errors s)).
      assert (Hfrom : forall (s2 : MigState db) (p : nat),
                 store s2 = st' ->
                 total_labels s2 = (total_labels s + 1)%nat ->
                 (get_label_count db vp
                    (store (fst (fst (migrate_labels db vp rest s2 p))))
                  + total_labels s
                  = get_label_count db vp (store s)
                    + total_labels
                        (fst (fst (migrate_labels db vp rest s2 p))))%nat
                 /\
                 forall v, v <> vp ->
                   get_label_count db v
                     (store (fst (fst (migrate_labels db vp rest s2 p))))
                   = get_label_count db v (store s)).
      { intros s2 p H1 H2. destruct (IH s2 p) as [Ha Hb].
        rewrite H1, H2 in *. split; [lia|].
        intros v Hv. rewrite (Hb v Hv). auto. }
      destruct (pixels <- py_get label "pixels" (JArr []);; py_len pixels)
        as [e|n].
      * pose proof (record_failed_keeps db vp label e s1) as [Hst [Htl _]].
        destruct (record_failed db vp label e s1) as [s' [e'|]];
          cbn [fst snd] in *.
        -- rewrite Hst, Htl. cbn [store total_labels s1].
           split; [lia | exact Hother].
        -- apply Hfrom; assumption.
      * apply Hfrom; reflexivity.
Qed.

Lemma migrate_file_counts (f : File) (s : MigState db) :
  (get_label_count db (viewport_name f) (store (migrate_file db f s))
   + total_labels s
   = get_label_count db (viewport_name f) (store s)
     + total_labels (migrate_file db f s))%nat /\
  forall v, v <> viewport_name f ->
    get_label_count db v (store (migrate_file db f s))
    = get_label_count db v (store s).
Proof.
  unfold migrate_file.
  destruct (0 <? get_label_count db (viewport_name f) (store s))%nat;
    [split; [lia | reflexivity]|].
  destruct (file_labels f) as [e|records];
    [split; [cbn [add_error store total_labels]; lia | reflexivity]|].
  pose proof (migrate_labels_accounting (viewport_name f) records s 0)
    as [Ha Hb].
  destruct (migrate_labels db (viewport_name f) records s 0)
    as [[s' vpix] [e|]]; cbn [fst snd] in *; split; assumption.
Qed.

(** X8.  Handling one legacy file adds to the store, for the viewport
    of the file, exactly as many labels as it adds to the count of
    labels migrated, and leaves the label count of every other viewport
    as it was. *)
Theorem migrate_file_accounting (f : File) (s : MigState db) :
  (get_label_count db (viewport_name f) (store (migrate_file db f s))
   + total_labels s
   = get_label_count db (viewport_name f) (store s)
     + total_labels (migrate_file db f s))%nat /\
  forall v, v <> viewport_name f ->
    get_label_count db v (store (migrate_file db f s))
    = get_label_count db v (store s).
Proof. exact (migrate_file_counts f s). Qed.

(** X9.  A run never removes a label: after [migrate] has returned,
    every viewport has at least as many labels in the store as it had
    when the store was opened. *)
Theorem migrate_never_removes (dir : list File) (disk : Store db)
        (final : MigState db) :
  migrate db dir disk = inr final ->
  exists opened,
    init_db db disk = inr opened /\
    forall v, (get_label_count db v opened
               <= get_label_count db v (store final))%nat.
Proof.
  unfold migrate, bind. destruct (init_db db disk) as [e|st0]; [discriminate|].
  intros H. exists st0. split; [reflexivity|]. intros v.
  destruct (glob_labels dir) as [|g files].
  - injection H as <-. apply Nat.le_refl.
  - injection H as <-.
    apply (proj1 (migrate_files_mono db laws _ (mkMigState db st0 0 0 []))).
Qed.

(** X10.  When two legacy files yield the same viewport name and the
    first of them has a label saved, the second is skipped as a whole:
    none of its records is read. *)
Theorem same_viewport_second_skipped (f g : File) (s : MigState db) :
  viewport_name g = viewport_name f ->
  (total_labels s < total_labels (migrate_file db f s))%nat ->
  migrate_file db g (migrate_file db f s) = migrate_file db f s.
Proof.
  intros Hname Hsaved.
  destruct (migrate_file_counts f s) as [Hacc _].
  unfold migrate_file at 1. rewrite Hname.
  assert (Hpos : (0 <? get_label_count db (viewport_name f)
                         (store (migrate_file db f s)))%nat = true)
    by (apply Nat.ltb_lt; lia).
  rewrite Hpos. reflexivity.
Qed.

End Accounting.

Lemma migrate_file_accounting_witness :
  LabelsDbLaws sqlite /\
  (get_label_count sqlite (viewport_name scenario_D_file)
     (store (migrate_file sqlite scenario_D_file
                          (mkMigState sqlite empty_db 0 0 [])))
   + 0
   = get_label_count sqlite (viewport_name scenario_D_file) empty_db
     + total_labels (migrate_file sqlite scenario_D_file
                                  (mkMigState sqlite empty_db 0 0 [])))%nat /\
  forall v, v <> viewport_name scenario_D_file ->
    get_label_count sqlite v
      (store (migrate_file sqlite scenario_D_file
                           (mkMigState sqlite empty_db 0 0 [])))
    = get_label_count sqlite v empty_db.
Proof.
  split; [exact sqlite_laws|].
  exact (migrate_file_accounting sqlite sqlite_laws scenario_D_file
                                 (mkMigState sqlite empty_db 0 0 [])).
Defined.

Lemma migrate_never_removes_witness :
  LabelsDbLaws sqlite /\
  migrate sqlite [scenario_D_file] empty_db = inr scenario_D_first /\
  exists opened,
    init_db sqlite empty_db = inr opened /\
    forall v, (get_label_count sqlite v opened
               <= get_label_count sqlite v (store scenario_D_first))%nat.
Proof.
  split; [exact sqlite_laws|]. split; [reflexivity|].
  exact (migrate_never_removes sqlite sqlite_laws [scenario_D_file] empty_db
                               scenario_D_first eq_refl).
Defined.

Lemma same_viewport_second_skipped_witness :
  LabelsDbLaws sqlite /\
  viewport_name twin_file = viewport_name scenario_D_file /\
  (0 < total_labels (migrate_file sqlite scenario_D_file
                                  (mkMigState sqlite empty_db 0 0 [])))%nat /\
  migrate_file sqlite twin_file
    (migrate_file sqlite scenario_D_file (mkMigState sqlite empty_db 0 0 []))
  = migrate_file sqlite scenario_D_file (mkMigState sqlite empty_db 0 0 []).
Proof.
  assert (H : (0 < total_labels
                     (migrate_file sqlite scenario_D_file
                                   (mkMigState sqlite empty_db 0 0 [])))%nat)
    by (vm_compute; lia).
  split; [exact sqlite_laws|]. split; [reflexivity|]. split; [exact H|].
  exact (same_viewport_second_skipped sqlite sqlite_laws
           scenario_D_file twin_file (mkMigState sqlite empty_db 0 0 [])
           eq_refl H).
Defined.

(** *** A file that is left half way *)

Lemma migrate_labels_total_pixels (db : LabelsDb) (vp : string)
      (records : list json) :
  forall (s : MigState db) (vpix : nat),
    total_pixels (fst (fst (migrate_labels db vp records s vpix)))
    = total_pixels s.
Proof.
  induction records as [|label rest IH]; intros s vpix; [reflexivity|].
  cbn [migrate_labels].
  destruct (save_label db vp label (store s)) as [e|st'].
  - pose proof (record_failed_keeps db vp label e s) as [_ [_ Htp]].
    destruct (record_failed db vp label e s) as [s' [e'|]];
      cbn [fst snd] in *; [assumption|].
    rewrite IH. assumption.
  - destruct (pixels <- py_get label "pixels" (JArr []);; py_len pixels)
      as [e|n].
    + match goal with
      | |- context [record_failed db vp label e ?s1] =>
          pose proof (record_failed_keeps db vp label e s1) as [_ [_ Htp]];
          destruct (record_failed db vp label e s1) as [s' [e'|]]
      end; cbn [fst snd] in *; [assumption|].
      rewrite IH. assumption.
    + rewrite IH. reflexivity.
Qed.

(** X11.  When an exception leaves the loop over the labels of a file,
    the file is charged one file-level error on top of the state the
    loop reached, so the labels saved before the exception stay saved
    and counted; but the pixels counted for the file so far are dropped:
    the total of pixels migrated is what it was before the file. *)
Theorem interrupted_file_drops_pixels (db : LabelsDb) (f : File)
        (records : list json) (s s' : MigState db) (vpix : nat)
        (e : PyError) :
  get_label_count db (viewport_name f) (store s) = 0%nat ->
  file_labels f = inr records ->
  migrate_labels db (viewport_name f) records s 0 = (s', vpix, Some e) ->
  migrate_file db f s = add_error s' (FileError (viewport_name f) e) /\
  total_pixels (migrate_file db f s) = total_pixels s.
Proof.
  intros Hcount Hrecords Hloop.
  pose proof (migrate_labels_total_pixels db (viewport_name f) records s 0)
    as Htp.
  unfold migrate_file. rewrite Hcount, Hrecords, Hloop in *.
  cbn [Nat.ltb Nat.leb fst snd] in *. split; [reflexivity|].
  cbn [add_error total_pixels]. assumption.
Qed.

Lemma interrupted_file_drops_pixels_witness :
  get_label_count sqlite (viewport_name interrupted_file) empty_db = 0%nat /\
  file_labels interrupted_file
  = inr [label_json "road" [(1, 2); (3, 4)]%Z; JNum 5] /\
  migrate_labels sqlite (viewport_name interrupted_file)
                 [label_json "road" [(1, 2); (3, 4)]%Z; JNum 5]
                 (mkMigState sqlite empty_db 0 0 []) 0
  = (mkMigState sqlite
                (mkSqlite true [mkRow "city" "road" [(1, 2); (3, 4)]%Z])
                1 0 [],
     2%nat, Some (AttributeError "int" "get")) /\
  migrate_file sqlite interrupted_file (mkMigState sqlite empty_db 0 0 [])
  = add_error
      (mkMigState sqlite
                  (mkSqlite true [mkRow "city" "road" [(1, 2); (3, 4)]%Z])
                  1 0 [])
      (FileError (viewport_name interrupted_file)
                 (AttributeError "int" "get")) /\
  total_pixels (migrate_file sqlite interrupted_file
                             (mkMigState sqlite empty_db 0 0 []))
  = total_pixels (mkMigState sqlite empty_db 0 0 []).
Proof.
  split; [reflexivity|]. split; [reflexivity|]. split; [reflexivity|].
  exact (interrupted_file_drops_pixels sqlite interrupted_file
           [label_json "road" [(1, 2); (3, 4)]%Z; JNum 5]
           (mkMigState sqlite empty_db 0 0 [])
           (mkMigState sqlite
                       (mkSqlite true [mkRow "city" "road" [(1, 2); (3, 4)]%Z])
                       1 0 [])
           2 (AttributeError "int" "get") eq_refl eq_refl eq_refl).
Defined.

(** *** File names *)

Lemma string_length_append (a b : string) :
  String.length (a ++ b) = (String.length a + String.length b)%nat.
Proof. induction a as [|c a IH]; simpl; [reflexivity | rewrite IH; reflexivity]. Qed.

Lemma substring_skip (v suffix : string) :
  String.substring (String.length v) (String.length suffix) (v ++ suffix)
  = suffix.
Proof.
  induction v as [|c v IH]; simpl.
  - induction suffix as [|c s IHs]; simpl; [reflexivity|].
    rewrite IHs. reflexivity.
  - exact IH.
Qed.

Lemma substring_take (v rest : string) (n : nat) :
  String.substring 0 (String.length v + n) (v ++ rest)
  = v ++ String.substring 0 n rest.
Proof.
  induction v as [|c v IH]; simpl; [reflexivity|].
  rewrite IH. reflexivity.
Qed.

Lemma ends_with_append (v suffix : string) :
  ends_with suffix (v ++ suffix) = true.
Proof.
  unfold ends_with. rewrite string_length_append.
  replace (String.length v + String.length suffix - String.length suffix)%nat
    with (String.length v) by lia.
  rewrite substring_skip, String.eqb_refl, andb_true_r.
  apply Nat.leb_le. lia.
Qed.

Lemma prefix_labels_false (c : ascii) (v : string) :
  String.prefix "_l" (String c v) = false ->
  String.prefix "_labels" (String c (v ++ "_labels")) = false.
Proof.
  cbn [String.prefix]. destruct (ascii_dec "_" c) as [_|_]; [|reflexivity].
  destruct v as [|d v]; cbn [String.append String.prefix].
  - intros _. destruct (ascii_dec "l" "_") as [H|_];
      [discriminate H | reflexivity].
  - destruct (ascii_dec "l" d) as [_|_]; [|reflexivity].
    destruct v; discriminate.
Qed.

Lemma remove_labels_suffix (v : string) :
  String.index 0 "_l" v = None ->
  str_remove "_labels" (v ++ "_labels") = v.
Proof.
  unfold str_remove. induction v as [|c v IH]; intros Hno.
  - reflexivity.
  - cbn [String.index] in Hno.
    destruct (String.prefix "_l" (String c v)) eqn:Hp; [discriminate Hno|].
    destruct (String.index 0 "_l" v) eqn:Hi; [discriminate Hno|].
    change ((String c v) ++ "_labels") with (String c (v ++ "_labels")).
    cbn [remove_from].
    rewrite (prefix_labels_false c v Hp), (IH eq_refl). reflexivity.
Qed.

(** X12.  The naming convention of the legacy files round-trips for
    every viewport id in which no underscore is followed by the letter
    l: the file [<id>_labels.json] is picked up by the glob, and the
    viewport name derived from it is [<id>] again. *)
Theorem viewport_name_round_trip (id : string) (c : result json) :
  String.index 0 "_l" id = None ->
  glob_labels [mkFile (id ++ "_labels.json") c]
  = [mkFile (id ++ "_labels.json") c] /\
  viewport_name (mkFile (id ++ "_labels.json") c) = id.
Proof.
  intros Hno. split.
  - unfold glob_labels. cbn [filter name].
    rewrite ends_with_append. reflexivity.
  - unfold viewport_name, stem. cbn [name].
    rewrite string_length_append.
    change (String.length "_labels.json") with 12%nat.
    replace (String.length id + 12 - 5)%nat with (String.length id + 7)%nat
      by lia.
    rewrite substring_take.
    change (String.substring 0 7 "_labels.json") with "_labels".
    apply remove_labels_suffix. assumption.
Qed.

Lemma viewport_name_round_trip_witness :
  String.index 0 "_l" "tile_aligned" = None /\
  glob_labels [mkFile ("tile_aligned" ++ "_labels.json") (inl (OSError ""))]
  = [mkFile ("tile_aligned" ++ "_labels.json") (inl (OSError ""))] /\
  viewport_name (mkFile ("tile_aligned" ++ "_labels.json") (inl (OSError "")))
  = "tile_aligned".
Proof.
  split; [reflexivity|].
  exact (viewport_name_round_trip "tile_aligned" (inl (OSError "")) eq_refl).
Defined.

(** *** The order of the directory listing *)

Lemma ascii_compare_lt_trans (a b c : ascii) :
  Ascii.compare a b = Lt -> Ascii.compare b c = Lt -> Ascii.compare a c = Lt.
Proof.
  unfold Ascii.compare. rewrite !N.compare_lt_iff. apply N.lt_trans.
Qed.

Lemma string_leb_trans (s1 s2 s3 : string) :
  String.leb s1 s2 = true -> String.leb s2 s3 = true ->
  String.leb s1 s3 = true.
Proof.
  unfold String.leb. revert s2 s3.
  induction s1 as [|a s1 IH]; intros [|b s2] [|c s3]; simpl;
    try reflexivity; try discriminate.
  destruct (Ascii.compare a b) eqn:Hab; try discriminate.
  - apply Ascii.compare_eq_iff in Hab. subst b.
    destruct (Ascii.compare a c) eqn:Hac; try reflexivity.
    + apply IH.
    + discriminate.
  - destruct (Ascii.compare b c) eqn:Hbc; try discriminate.
    + apply Ascii.compare_eq_iff in Hbc. subst c. rewrite Hab. reflexivity.
    + rewrite (ascii_compare_lt_trans a b c Hab Hbc). reflexivity.
Qed.

Lemma insert_file_comm_le (f g : File) (l : list File) :
  String.leb (name f) (name g) = true ->
  String.leb (name g) (name f) = false ->
  insert_file f (insert_file g l) = insert_file g (insert_file f l).
Proof.
  intros Hfg Hgf. induction l as [|h t IH]; cbn [insert_file].
  - rewrite Hfg, Hgf. reflexivity.
  - destruct (String.leb (name g) (name h)) eqn:Hgh.
    + rewrite (string_leb_trans _ _ _ Hfg Hgh).
      cbn [insert_file]. rewrite Hfg, Hgf, Hgh. reflexivity.
    + destruct (String.leb (name f) (name h)) eqn:Hfh;
        cbn [insert_file]; rewrite Hfh.
      * rewrite Hgf. cbn [insert_file]. rewrite Hgh. reflexivity.
      * rewrite Hgh, IH. reflexivity.
Qed.

Lemma insert_file_comm (f g : File) (l : list File) :
  name f <> name g ->
  insert_file f (insert_file g l) = insert_file g (insert_file f l).
Proof.
  intros Hne.
  destruct (String.leb (name f) (name g)) eqn:Hfg;
    destruct (String.leb (name g) (name f)) eqn:Hgf.
  - exfalso. apply Hne. apply String.leb_antisym; assumption.
  - apply insert_file_comm_le; assumption.
  - symmetry. apply insert_file_comm_le; assumption.
  - destruct (String.leb_total (name f) (name g)); congruence.
Qed.

Lemma sorted_permutation (l l' : list File) :
  Permutation l l' -> NoDup (map name l) -> sorted l = sorted l'.
Proof.
  induction 1 as [|x l l' Hperm IH|x y l|l l' l'' H1 IH1 H2 IH2];
    intros Hnd.
  - reflexivity.
  - cbn [sorted fold_right]. fold (sorted l) (sorted l').
    rewrite IH; [reflexivity|]. inversion Hnd; assumption.
  - cbn [sorted fold_right]. fold (sorted l).
    apply insert_file_comm. cbn [map] in Hnd.
    inversion Hnd as [|? ? Hnotin _]; subst.
    intros Heq. apply Hnotin. left. symmetry. assumption.
  - rewrite IH1 by assumption. apply IH2.
    apply (Permutation_NoDup (Permutation_map name H1)). assumption.
Qed.

Lemma glob_labels_permutation (l l' : list File) :
  Permutation l l' -> Permutation (glob_labels l) (glob_labels l').
Proof.
  unfold glob_labels.
  induction 1 as [|x l l' Hperm IH|x y l|l l' l'' H1 IH1 H2 IH2];
    cbn [filter].
  - constructor.
  - destruct (ends_with "_labels.json" (name x)); [constructor|]; assumption.
  - destruct (ends_with "_labels.json" (name x));
      destruct (ends_with "_labels.json" (name y));
      try apply Permutation_refl. apply perm_swap.
  - eapply perm_trans; eassumption.
Qed.

Lemma glob_labels_nodup (l : list File) :
  NoDup (map name l) -> NoDup (map name (glob_labels l)).
Proof.
  unfold glob_labels. induction l as [|x l IH]; intros Hnd; [constructor|].
  cbn [map] in Hnd. inversion Hnd as [|? ? Hnotin Hrest]; subst.
  cbn [filter]. destruct (ends_with "_labels.json" (name x)); [|auto].
  cbn [map]. constructor; [|auto].
  intros Hin. apply Hnotin. apply in_map_iff in Hin as [g [Hg Hin]].
  apply filter_In in Hin as [Hin _]. apply in_map_iff. exists g. auto.
Qed.

(** X13.  The outcome of [migrate] does not depend on the order in
    which the directory lists its files: two listings of the same files,
    whose names are distinct as they are within a directory, give the
    same result on the same store, because the files are sorted by name
    first. *)
Theorem migrate_order_irrelevant (db : LabelsDb) (dir dir' : list File)
        (disk : Store db) :
  Permutation dir dir' ->
  NoDup (map name dir) ->
  migrate db dir' disk = migrate db dir disk.
Proof.
  intros Hperm Hnd. unfold migrate, bind.
  destruct (init_db db disk) as [e|st]; [reflexivity|].
  pose proof (glob_labels_permutation _ _ Hperm) as Hglob.
  pose proof (sorted_permutation _ _ Hglob (glob_labels_nodup dir Hnd))
    as Hsort.
  destruct (glob_labels dir) as [|g files] eqn:Hg.
  - apply Permutation_nil in Hglob. rewrite Hglob. reflexivity.
  - destruct (glob_labels dir') as [|g' files'] eqn:Hg'.
    + apply Permutation_sym, Permutation_nil in Hglob. discriminate Hglob.
    + rewrite Hsort. reflexivity.
Qed.

Lemma migrate_order_irrelevant_witness :
  Permutation [twin_file; scenario_D_file] [scenario_D_file; twin_file] /\
  NoDup (map name [twin_file; scenario_D_file]) /\
  migrate sqlite [scenario_D_file; twin_file] empty_db
  = migrate sqlite [twin_file; scenario_D_file] empty_db.
Proof.
  assert (Hp : Permutation [twin_file; scenario_D_file]
                           [scenario_D_file; twin_file])
    by apply perm_swap.
  assert (Hn : NoDup (map name [twin_file; scenario_D_file])).
  { cbn [map]. constructor.
    - intros [H|[]]. discriminate H.
    - constructor; [intros [] | constructor]. }
  split; [exact Hp|]. split; [exact Hn|].
  exact (migrate_order_irrelevant sqlite _ _ empty_db Hp Hn).
Defined.

End MigrationExtra.

(* ------------------------------------------------------------------ *)

Module ViewerExtra.

Import Viewer.
Local Open Scope string_scope.

Lemma Qlt_b_true (a b : Q) : Qlt_b a b = true <-> (a < b)%Q.
Proof.
  unfold Qlt_b. rewrite negb_true_iff. split.
  - intros H. apply Qnot_le_lt. intros Hle.
    apply Qle_bool_iff in Hle. congruence.
  - intros H. destruct (Qle_bool b a) eqn:Hle; [|reflexivity].
    apply Qle_bool_iff in Hle. exfalso. apply (Qlt_not_le _ _ H Hle).
Qed.

Lemma Qlt_b_false (a b : Q) : Qlt_b a b = false <-> (b <= a)%Q.
Proof.
  unfold Qlt_b. rewrite negb_false_iff. apply Qle_bool_iff.
Qed.

Lemma zoom_for_range (extent : Q) : (12 <= zoom_for extent <= 15)%Z.
Proof.
  unfold zoom_for.
  destruct (Qlt_b extent 0.05); [lia|].
  destruct (Qlt_b extent 0.1); [lia|].
  destruct (Qlt_b extent 0.2); lia.
Qed.

Lemma zoom_for_antitone (e1 e2 : Q) :
  (e1 <= e2)%Q -> (zoom_for e2 <= zoom_for e1)%Z.
Proof.
  intros Hle. unfold zoom_for.
  destruct (Qlt_b e2 0.05) eqn:H2a.
  { apply Qlt_b_true in H2a.
    assert (H : Qlt_b e1 0.05 = true)
      by (apply Qlt_b_true; eapply Qle_lt_trans; eassumption).
    rewrite H. lia. }
  destruct (Qlt_b e2 0.1) eqn:H2b.
  { apply Qlt_b_true in H2b.
    assert (H : Qlt_b e1 0.1 = true)
      by (apply Qlt_b_true; eapply Qle_lt_trans; eassumption).
    rewrite H. destruct (Qlt_b e1 0.05); lia. }
  destruct (Qlt_b e2 0.2) eqn:H2c.
  { apply Qlt_b_true in H2c.
    assert (H : Qlt_b e1 0.2 = true)
      by (apply Qlt_b_true; eapply Qle_lt_trans; eassumption).
    rewrite H. destruct (Qlt_b e1 0.05); [lia|].
    destruct (Qlt_b e1 0.1); lia. }
  destruct (Qlt_b e1 0.05); [lia|].
  destruct (Qlt_b e1 0.1); [lia|].
  destruct (Qlt_b e1 0.2); lia.
Qed.

(** X14.  The initial zoom the function computes is a level between 12
    and 15 whatever the arguments, and it never grows with the extent of
    the viewport: a larger extent gets the same or a smaller level. *)
Theorem initial_zoom_range_antitone
        (transform_bounds : string -> string -> Bounds -> Bounds)
        (viewport_id : option string) (viewport_bounds : option Bounds)
        (w : World) (e1 e2 : Q) :
  (e1 <= e2)%Q ->
  (exists z,
      lookup_local "initial_zoom"
        (locals_at_template transform_bounds viewport_id viewport_bounds w)
      = Some (VInt z) /\
      (12 <= z <= 15)%Z) /\
  (zoom_for e2 <= zoom_for e1)%Z.
Proof.
  intros Hle. split; [|apply zoom_for_antitone; assumption].
  destruct w as [[src|] files];
    destruct viewport_bounds as [[[[b0 b1] b2] b3]|];
    eexists; (split; [reflexivity|]);
    try apply zoom_for_range; lia.
Qed.

Lemma initial_zoom_range_antitone_witness :
  (0.07 <= 0.31)%Q /\
  (exists z,
      lookup_local "initial_zoom"
        (locals_at_template (fun _ _ b => b) (Some "tile_aligned")
                            (Some bangalore_bounds) empty_world)
      = Some (VInt z) /\
      (12 <= z <= 15)%Z) /\
  (zoom_for 0.31 <= zoom_for 0.07)%Z.
Proof.
  assert (H : (0.07 <= 0.31)%Q) by (apply Qle_bool_iff; reflexivity).
  split; [exact H|].
  exact (initial_zoom_range_antitone (fun _ _ b => b) (Some "tile_aligned")
           (Some bangalore_bounds) empty_world 0.07 0.31 H).
Defined.

(** X15.  For viewport bounds given in order (south at most north, west
    at most east), the centre the function computes lies within them. *)
Theorem center_within_bounds
        (transform_bounds : string -> string -> Bounds -> Bounds)
        (viewport_id : option string) (b0 b1 b2 b3 : Q) (w : World) :
  (b0 <= b2)%Q ->
  (b1 <= b3)%Q ->
  exists c0 c1,
    lookup_local "center"
      (locals_at_template transform_bounds viewport_id
                          (Some (b0, b1, b2, b3)) w)
    = Some (pair_list c0 c1) /\
    (b0 <= c0 <= b2)%Q /\ (b1 <= c1 <= b3)%Q.
Proof.
  intros H02 H13.
  exists ((b0 + b2) / 2)%Q, ((b1 + b3) / 2)%Q.
  split; [destruct w as [[src|] files]; reflexivity|].
  unfold Qdiv. change (/ 2)%Q with (1 # 2)%Q.
  split; split; Lqa.lra.
Qed.

Lemma center_within_bounds_witness :
  (12.83 <= 13.14)%Q /\
  (77.46 <= 77.78)%Q /\
  exists c0 c1,
    lookup_local "center"
      (locals_at_template (fun _ _ b => b) (Some "tile_aligned")
                          (Some (12.83, 77.46, 13.14, 77.78)%Q) empty_world)
    = Some (pair_list c0 c1) /\
    (12.83 <= c0 <= 13.14)%Q /\ (77.46 <= c1 <= 77.78)%Q.
Proof.
  assert (H1 : (12.83 <= 13.14)%Q) by (apply Qle_bool_iff; reflexivity).
  assert (H2 : (77.46 <= 77.78)%Q) by (apply Qle_bool_iff; reflexivity).
  split; [exact H1|]. split; [exact H2|].
  exact (center_within_bounds (fun _ _ b => b) (Some "tile_aligned")
           12.83 77.46 13.14 77.78 empty_world H1 H2).
Defined.

(** X16.  Run as a script, the program never writes a viewer file: it
    ends in the [NameError] of [CENTER] when the active viewport cannot
    be read (the default arguments are used), when the dictionary lacks
    one of its two entries, and when it holds an id; only a dictionary
    that holds [None] as id together with bounds ends in the
    [AttributeError] of the page title. *)
Theorem main_never_writes
        (transform_bounds : string -> string -> Bounds -> Bounds)
        (active : result ActiveViewport) (w : World) :
  main transform_bounds active w
  = (inl (match active with
          | inr (mkActive (Some None) (Some (Some _))) =>
              AttributeError "NoneType" "title"
          | _ => NameError "CENTER"
          end),
     w).
Proof.
  unfold main, main_arguments.
  destruct w as [[src|] files];
    destruct active as [e|[[[id|]|] [[[[[b0 b1] b2] b3]|]|]]];
    reflexivity.
Qed.

End ViewerExtra.

(* ------------------------------------------------------------------ *)

Module DownloadExtra.

Import Download.
Local Open Scope Q_scope.

Lemma np_clip_bounds (x : Q) : 0 <= np_clip x 0 255 <= 255.
Proof.
  unfold np_clip.
  destruct (Qle_bool 0 x) eqn:H0.
  - apply Qle_bool_iff in H0.
    destruct (Qle_bool x 255) eqn:H1.
    + apply Qle_bool_iff in H1. split; assumption.
    + split; [discriminate | apply Qle_refl].
  - change (Qle_bool 0 255) with true. cbv iota.
    split; [apply Qle_refl | discriminate].
Qed.

Lemma np_clip_monotone (x y : Q) :
  x <= y -> np_clip x 0 255 <= np_clip y 0 255.
Proof.
  intros Hxy. unfold np_clip.
  destruct (Qle_bool 0 x) eqn:Hx0; destruct (Qle_bool 0 y) eqn:Hy0.
  - destruct (Qle_bool x 255) eqn:Hx1; destruct (Qle_bool y 255) eqn:Hy1.
    + assumption.
    + apply Qle_bool_iff in Hx1. assumption.
    + apply Qle_bool_iff in Hy1.
      assert (H : Qle_bool x 255 = true)
        by (apply Qle_bool_iff; eapply Qle_trans; eassumption).
      congruence.
    + apply Qle_refl.
  - apply Qle_bool_iff in Hx0.
    assert (H : Qle_bool 0 y = true)
      by (apply Qle_bool_iff; eapply Qle_trans; eassumption).
    congruence.
  - change (Qle_bool 0 255) with true. cbv iota.
    apply Qle_bool_iff in Hy0.
    destruct (Qle_bool y 255); [assumption | discriminate].
  - apply Qle_refl.
Qed.

Lemma scale_monotone (x y : Q) : x <= y -> x / 3000 * 255 <= y / 3000 * 255.
Proof.
  intros H. unfold Qdiv. change (/ 3000) with (1 # 3000). Lqa.lra.
Qed.

(** X17.  The conversion of a band sample to 8 bits always yields a
    value from 0 to 255 and preserves the order of the samples; samples
    of at most 0 become 0 and samples of at least 3000 become 255. *)
Theorem to_uint8_clipped_monotone (lo hi x y : Q) :
  lo <= 0 ->
  3000 <= hi ->
  x <= y ->
  to_uint8 lo = 0%Z /\
  to_uint8 hi = 255%Z /\
  (0 <= to_uint8 x <= to_uint8 y)%Z /\
  (to_uint8 y <= 255)%Z.
Proof.
  intros Hlo Hhi Hxy. unfold to_uint8.
  assert (Hrange : forall z, (0 <= Qfloor (np_clip (z / 3000 * 255) 0 255)
                              <= 255)%Z).
  { intros z. destruct (np_clip_bounds (z / 3000 * 255)) as [H0 H255].
    split.
    - change 0%Z with (Qfloor 0). apply Qfloor_resp_le. assumption.
    - change 255%Z with (Qfloor 255). apply Qfloor_resp_le. assumption. }
  split; [|split; [|split; [split|]]].
  - assert (H : np_clip (lo / 3000 * 255) 0 255 == 0).
    { unfold np_clip.
      destruct (Qle_bool 0 (lo / 3000 * 255)) eqn:H0.
      - apply Qle_bool_iff in H0.
        assert (Hz : lo / 3000 * 255 == 0).
        { apply Qle_antisym; [|assumption].
          unfold Qdiv in *. change (/ 3000) with (1 # 3000) in *. Lqa.lra. }
        assert (H1 : Qle_bool (lo / 3000 * 255) 255 = true).
        { apply Qle_bool_iff. rewrite Hz. discriminate. }
        rewrite H1. assumption.
      - reflexivity. }
    rewrite H. reflexivity.
  - assert (H : np_clip (hi / 3000 * 255) 0 255 == 255).
    { assert (Hbig : 255 <= hi / 3000 * 255).
      { unfold Qdiv. change (/ 3000) with (1 # 3000). Lqa.lra. }
      unfold np_clip.
      assert (H0 : Qle_bool 0 (hi / 3000 * 255) = true).
      { apply Qle_bool_iff. eapply Qle_trans; [|exact Hbig]. discriminate. }
      rewrite H0.
      destruct (Qle_bool (hi / 3000 * 255) 255) eqn:H1; [|reflexivity].
      apply Qle_bool_iff in H1. apply Qle_antisym; assumption. }
    rewrite H. reflexivity.
  - apply Hrange.
  - apply Qfloor_resp_le, np_clip_monotone, scale_monotone. assumption.
  - apply Hrange.
Qed.

Lemma to_uint8_clipped_monotone_witness :
  -5 <= 0 /\
  3000 <= 4096 /\
  1000 <= 2000 /\
  to_uint8 (-5) = 0%Z /\
  to_uint8 4096 = 255%Z /\
  (0 <= to_uint8 1000 <= to_uint8 2000)%Z /\
  (to_uint8 2000 <= 255)%Z.
Proof.
  assert (H1 : -5 <= 0) by discriminate.
  assert (H2 : 3000 <= 4096) by discriminate.
  assert (H3 : 1000 <= 2000) by discriminate.
  split; [exact H1|]. split; [exact H2|]. split; [exact H3|].
  exact (to_uint8_clipped_monotone (-5) 4096 1000 2000 H1 H2 H3).
Defined.

End DownloadExtra.
